(** * Oracle Storage API: the file-backed record store of [server.js]

    A shallow embedding of [server.js] (the start-up code, the key check,
    the health check, the question routes and the file routes) over a model
    of the three pieces of the Node.js runtime it is written against:

    - JSON values with the few JavaScript coercions the handlers apply to
      them (truthiness, template-literal string conversion, property reads,
      object spread);
    - the POSIX flavour of the [path] module ([path.join], [path.normalize],
      [path.basename]);
    - the synchronous [fs] calls over a directory tree without symbolic
      links, on a volume that takes names of up to 255 bytes.

    A handler receives what Express hands it: the decoded route parameters
    (a parameter may contain ["/"], sent as [%2F]) and the parsed JSON
    body.  Clock readings ([new Date().toISOString()]) and the random
    identifier ([crypto.randomBytes(12).toString('hex')]) are inputs of
    the handlers, as is the value of [uuidv4 ()].  Of the upload
    middleware the development covers what the disk storage documents: the
    file goes to [destination/filename] after [fileFilter] has accepted it,
    and a file over [limits.fileSize] is removed again. *)

From Stdlib Require Import Ascii.
From stdpp Require Import gmap strings list fin_maps pretty.

#[local] Set Warnings "-register-all".
#[local] Open Scope string_scope.

(** ** JSON values *)

(** A number is carried by its canonical rendering, the string that
    [String(n)] produces (["0"] for zero, ["Infinity"] for a number beyond
    the range of a double); the handlers never compute with numbers.
    Objects are finite maps from property names to values. *)
Inductive json :=
| JNull
| JBool (b : bool)
| JNum (repr : string)
| JStr (s : string)
| JArr (items : list json)
| JObj (props : gmap string json).

(** JavaScript exceptions the handlers can meet. *)
Inductive error :=
| TypeError
| SyntaxError
| ENOENT
| ENOTDIR
| EISDIR
| ENAMETOOLONG.

Inductive outcome (A : Type) :=
| Done (a : A)
| Thrown (e : error).
Arguments Done {A} a.
Arguments Thrown {A} e.

Definition obind {A B} (x : outcome A) (f : A -> outcome B) : outcome B :=
  match x with
  | Done a => f a
  | Thrown e => Thrown e
  end.

Notation "'try!' x <- c ; k" := (obind c (fun x => k))
  (at level 10, x name, c at level 100, k at level 200).

(** [xs.map(f)] for a callback that may throw: the first exception aborts
    the whole map. *)
Fixpoint mapM {A B} (f : A -> outcome B) (xs : list A) : outcome (list B) :=
  match xs with
  | [] => Done []
  | x :: xs' => try! y <- f x; try! ys <- mapM f xs'; Done (y :: ys)
  end.

(** A JavaScript value read out of a JSON document: [None] is [undefined]. *)
Definition truthy (v : option json) : bool :=
  match v with
  | None => false
  | Some JNull => false
  | Some (JBool b) => b
  | Some (JNum r) => negb (bool_decide (r = "0"))
  | Some (JStr s) => negb (bool_decide (s = ""))
  | Some (JArr _) => true
  | Some (JObj _) => true
  end.

(** [a || b] where [a] may be undefined and [b] is a defined value. *)
Definition or_else (a : option json) (b : json) : json :=
  match a with
  | Some v => if truthy a then v else b
  | None => b
  end.

(** String conversion of a template literal, [`${v}`].  An array is joined
    with commas, its [null] items rendered empty; an object renders as
    ["[object Object]"], unless it owns a [toString] property: a JSON value
    is never callable, so the conversion throws TypeError. *)
Fixpoint toStr (v : json) : outcome string :=
  match v with
  | JNull => Done "null"
  | JBool true => Done "true"
  | JBool false => Done "false"
  | JNum r => Done r
  | JStr s => Done s
  | JArr items =>
      (fix join_items (l : list json) : outcome string :=
         match l with
         | [] => Done ""
         | x :: l' =>
             try! s <- match x with JNull => Done "" | _ => toStr x end;
             match l' with
             | [] => Done s
             | _ => try! r <- join_items l'; Done (s ++ "," ++ r)
             end
         end) items
  | JObj props =>
      match props !! "toString" with
      | Some _ => Thrown TypeError
      | None => Done "[object Object]"
      end
  end.

(** [`${v}`] for a value that may be undefined. *)
Definition toStr_opt (v : option json) : outcome string :=
  match v with
  | Some x => toStr x
  | None => Done "undefined"
  end.

(** [v.k] for the property names the handlers read ([_id], [title], [slug],
    [createdAt], [questions], ...), none of which is an array index or a
    built-in property: reading from [null] throws, an object answers with
    its own property, every other value with [undefined]. *)
Definition get_prop (v : json) (k : string) : outcome (option json) :=
  match v with
  | JNull => Thrown TypeError
  | JObj props => Done (props !! k)
  | _ => Done None
  end.

(** [v.k = x] followed only by reads of other properties and by
    [JSON.stringify (v)]: an object gains or replaces the property; on an
    array the new property is not an index and is not serialised; on a
    primitive the assignment is a no-op.  ([null] has thrown before any
    assignment is reached.) *)
Definition set_prop (v : json) (k : string) (x : json) : json :=
  match v with
  | JObj props => JObj (<[k := x]> props)
  | _ => v
  end.

(** The own enumerable properties that an object spread [{...v}] copies:
    the properties of an object, the items of an array and the characters
    of a string under their indices, nothing for the other values.  A
    string is a sequence of bytes here, which is the sequence of its
    characters when the string is ASCII; the body of a request is never a
    string, and a record file holds one only when it was put there by
    hand. *)
Definition indexed {A} (f : A -> json) (xs : list A) : gmap string json :=
  list_to_map (imap (fun i x => (pretty i, f x)) xs).

Definition own_props (v : json) : gmap string json :=
  match v with
  | JObj props => props
  | JArr items => indexed id items
  | JStr s => indexed (fun c => JStr (String c "")) (String.list_ascii_of_string s)
  | _ => ∅
  end.

(** An object literal that is only ever serialised ([res.json],
    [JSON.stringify]): later properties replace earlier ones, and a property
    whose value is [undefined] is left out of the output. *)
Definition put (k : string) (v : option json) (props : gmap string json)
  : gmap string json :=
  match v with
  | Some x => <[k := x]> props
  | None => delete k props
  end.

Definition object (fields : list (string * option json)) : json :=
  JObj (fold_left (fun props kv => put kv.1 kv.2 props) fields ∅).

Definition num (n : nat) : json := JNum (pretty n).

(** [JSON.parse] reads a numeral beyond the range of a double, such as
    [1e999], as [Infinity] or [-Infinity]; such a number is truthy and its
    string conversion is its name, but [JSON.stringify] has no notation for
    it and writes [null] in its place, at any depth. *)
Definition non_finite (repr : string) : bool :=
  bool_decide (repr = "Infinity" ∨ repr = "-Infinity").

Fixpoint serialised (v : json) : json :=
  match v with
  | JNum repr => if non_finite repr then JNull else v
  | JArr items => JArr (map serialised items)
  | JObj props => JObj (serialised <$> props)
  | _ => v
  end.

(** The size of a value, the measure of the inductions over values. *)
Fixpoint json_size (v : json) : nat :=
  match v with
  | JArr items => S (foldr (fun x n => json_size x + n) 0 items)
  | JObj props => S (map_fold (fun _ x n => json_size x + n) 0 props)
  | _ => 1
  end.

(** ** The [path] module (POSIX) *)

Module path.

(** [s.split('/')]: never empty. *)
Fixpoint split (s : string) : list string :=
  match s with
  | EmptyString => [""]
  | String c s' =>
      if bool_decide (c = "/"%char) then "" :: split s'
      else match split s' with
           | seg :: segs => String c seg :: segs
           | [] => [String c ""]
           end
  end.

Definition isAbsolute (p : string) : bool :=
  match p with
  | String c _ => bool_decide (c = "/"%char)
  | EmptyString => false
  end.

Definition trailingSeparator (p : string) : bool :=
  match last (String.list_ascii_of_string p) with
  | Some c => bool_decide (c = "/"%char)
  | None => false
  end.

(** One segment of [normalizeString]: empty and ["."] segments vanish,
    [".."] removes the segment before it, and is itself kept only above
    the start of a relative path. *)
Definition norm_step (allowAboveRoot : bool) (res : list string) (seg : string)
  : list string :=
  if bool_decide (seg = "" ∨ seg = ".") then res
  else if bool_decide (seg = "..") then
    match last res with
    | Some top =>
        if bool_decide (top = "..")
        then (if allowAboveRoot then res ++ [".."] else res)
        else removelast res
    | None => if allowAboveRoot then [".."] else []
    end
  else res ++ [seg].

Definition normalizeString (p : string) (allowAboveRoot : bool) : list string :=
  fold_left (norm_step allowAboveRoot) (split p) [].

Definition unsplit (segs : list string) : string := String.concat "/" segs.

Definition normalize (p : string) : string :=
  if bool_decide (p = "") then "."
  else
    let res := unsplit (normalizeString p (negb (isAbsolute p))) in
    if bool_decide (res = "") then
      (if isAbsolute p then "/" else if trailingSeparator p then "./" else ".")
    else
      (if isAbsolute p then "/" else "") ++ res ++
      (if trailingSeparator p then "/" else "").

(** Whether a name contains a separator. *)
Fixpoint has_sep (s : string) : bool :=
  match s with
  | EmptyString => false
  | String c s' => bool_decide (c = "/"%char) || has_sep s'
  end.

(** [path.join (...args)]: the non-empty arguments, joined by ["/"], then
    normalised. *)
Definition join (args : list string) : string :=
  match filter (fun a => a ≠ "") args with
  | [] => "."
  | parts => normalize (unsplit parts)
  end.

(** [path.basename (p)]: scanning from the end, trailing separators are
    skipped and the characters down to the next separator are returned;
    that is the last non-empty segment, or [""] when there is none. *)
Definition basename (p : string) : string :=
  default "" (last (filter (fun seg => seg ≠ "") (split p))).

End path.

(** ** The file system *)

(** What a file holds, as [JSON.parse (fs.readFileSync (p, 'utf8'))] sees
    it: [Doc v] is a text that parses to [v]; [Bytes raw] is any content
    that [JSON.parse] rejects with a SyntaxError (a damaged record, an
    uploaded image or PDF).  [JSON.stringify (v, null, 2)] writes a text
    that parses to [v] as serialised. *)
Inductive content :=
| Doc (v : json)
| Bytes (raw : string).

Definition JSON_parse (c : content) : outcome json :=
  match c with
  | Doc v => Done v
  | Bytes _ => Thrown SyntaxError
  end.

Definition JSON_stringify (v : json) : content := Doc (serialised v).

Inductive node :=
| File (c : content)
| Dir.

(** The working directory of the process and the entries of the volume,
    each under its absolute path, a list of segments from the root. *)
Record world := World {
  cwd : list string;
  tree : gmap (list string) node
}.

Module fs.

(** The entry a path string names: relative paths start from the working
    directory, [".."] at the root stays at the root. *)
Definition resolve (w : world) (p : string) : list string :=
  fold_left (path.norm_step false) (path.split p)
            (if path.isAbsolute p then [] else cwd w).

Definition node_at (w : world) (k : list string) : option node :=
  match k with
  | [] => Some Dir
  | _ => tree w !! k
  end.

Definition parent (k : list string) : list string := removelast k.

(** The longest name of an entry, in bytes, and the character no path may
    contain: every call checks its path for a NUL character before it
    looks at the volume, and throws a TypeError when it finds one;
    [fs.existsSync] answers [false] instead. *)
Definition NAME_MAX : nat := 255.

Fixpoint has_nul (s : string) : bool :=
  match s with
  | EmptyString => false
  | String c s' => bool_decide (c = Ascii.zero) || has_nul s'
  end.

Definition existsSync (w : world) (p : string) : bool :=
  if has_nul p then false
  else
    match node_at w (resolve w p) with
    | Some _ => true
    | None => false
    end.

Definition readFileSync (w : world) (p : string) : outcome content :=
  if has_nul p then Thrown TypeError
  else
    match node_at w (resolve w p) with
    | Some (File c) => Done c
    | Some Dir => Thrown EISDIR
    | None => Thrown ENOENT
    end.

(** [fs.writeFileSync] replaces an existing file, creates a missing one in
    an existing directory, and creates no directory.  The volume refuses to
    create an entry whose name is longer than [NAME_MAX]. *)
Definition writeFileSync (w : world) (p : string) (c : content) : outcome world :=
  if has_nul p then Thrown TypeError
  else
    let k := resolve w p in
    match node_at w k with
    | Some Dir => Thrown EISDIR
    | Some (File _) => Done (World (cwd w) (<[k := File c]> (tree w)))
    | None =>
        match node_at w (parent k) with
        | Some Dir =>
            if decide (String.length (default "" (last k)) ≤ NAME_MAX)%nat
            then Done (World (cwd w) (<[k := File c]> (tree w)))
            else Thrown ENAMETOOLONG
        | Some (File _) => Thrown ENOTDIR
        | None => Thrown ENOENT
        end
    end.

Definition unlinkSync (w : world) (p : string) : outcome world :=
  if has_nul p then Thrown TypeError
  else
    let k := resolve w p in
    match node_at w k with
    | Some (File _) => Done (World (cwd w) (delete k (tree w)))
    | Some Dir => Thrown EISDIR
    | None => Thrown ENOENT
    end.

(** The name of an entry when it lies directly in directory [k].  The
    names of a directory come in the order of the map; the order in which
    the operating system hands them out is not specified, and no property
    below depends on which one it is. *)
Definition child_name (k : list string) (entry : list string * node)
  : option string :=
  match last entry.1 with
  | Some name => if bool_decide (entry.1 = (k ++ [name])%list) then Some name else None
  | None => None
  end.

Definition readdirSync (w : world) (p : string) : outcome (list string) :=
  if has_nul p then Thrown TypeError
  else
    let k := resolve w p in
    match node_at w k with
    | Some Dir => Done (omap (child_name k) (map_to_list (tree w)))
    | Some (File _) => Thrown ENOTDIR
    | None => Thrown ENOENT
    end.

End fs.

(** ** Handlers: state and exceptions *)

(** A handler body runs against the volume and may throw; what it wrote
    before throwing stays written. *)
Definition M (A : Type) : Type := world -> outcome A * world.

Definition ret {A} (a : A) : M A := fun w => (Done a, w).

Definition bind {A B} (m : M A) (f : A -> M B) : M B :=
  fun w =>
    match m w with
    | (Done a, w') => f a w'
    | (Thrown e, w') => (Thrown e, w')
    end.

Notation "'do!' x <- c ; k" := (bind c (fun x => k))
  (at level 10, x name, c at level 100, k at level 200).

Definition lift {A} (o : outcome A) : M A := fun w => (o, w).

Definition existsM (p : string) : M bool :=
  fun w => (Done (fs.existsSync w p), w).

Definition readM (p : string) : M content :=
  fun w => (fs.readFileSync w p, w).

Definition writeM (p : string) (c : content) : M unit :=
  fun w =>
    match fs.writeFileSync w p c with
    | Done w' => (Done tt, w')
    | Thrown e => (Thrown e, w)
    end.

Definition unlinkM (p : string) : M unit :=
  fun w =>
    match fs.unlinkSync w p with
    | Done w' => (Done tt, w')
    | Thrown e => (Thrown e, w)
    end.

(** How a handler answers.  [Reply status body] is the call
    [res.status(status).json(body)] with the value [body] the handler
    built; what goes over the wire is [JSON.stringify (body)], see [sent]. *)
Inductive response :=
| Reply (status : nat) (body : json)  (* res.status(status).json(body) *)
| SendFile (c : content)              (* res.sendFile: 200 and the file's bytes *)
| NotFound                            (* res.sendFile declines the file:
                                         next(err) with status 404 *)
| NoRoute                             (* next(): Express's final handler, 404 *)
| Unhandled (e : error).              (* an exception leaves the handler:
                                         Express's error handler, 500 *)

Definition status_of (r : response) : nat :=
  match r with
  | Reply status _ => status
  | SendFile _ => 200
  | NotFound => 404
  | NoRoute => 404
  | Unhandled _ => 500
  end.

(** The answer as the client reads it. *)
Definition sent (r : response) : response :=
  match r with
  | Reply status body => Reply status (serialised body)
  | _ => r
  end.

(** [res.status(status).json({ error: msg })] *)
Definition failure (status : nat) (msg : string) : response :=
  Reply status (object [("error", Some (JStr msg))]).

(** The success bodies of the routes. *)
Definition found (data : json) : response :=
  Reply 200 (object [("success", Some (JBool true)); ("data", Some data)]).

Definition listed (questions : list json) : response :=
  Reply 200 (object [("success", Some (JBool true));
                     ("count", Some (num (length questions)));
                     ("data", Some (JArr questions))]).

Definition acknowledged (status : nat) (message : string) (data : option json)
  : response :=
  Reply status (object [("success", Some (JBool true));
                        ("message", Some (JStr message));
                        ("data", data)]).

Definition imported (created skipped : nat) : response :=
  Reply 200 (object [("success", Some (JBool true));
                     ("created", Some (num created));
                     ("skipped", Some (num skipped))]).

(** [try { body } catch (error) { res.status(500).json({ error: msg }) }],
    for a handler that writes and for one that only reads. *)
Definition try_catch (body : M response) (msg : string) : world -> response * world :=
  fun w =>
    match body w with
    | (Done r, w') => (r, w')
    | (Thrown _, w') => (failure 500 msg, w')
    end.

Definition try_catch_ro (body : outcome response) (msg : string) : response :=
  match body with
  | Done r => r
  | Thrown _ => failure 500 msg
  end.

(** ** Configuration (the defaults of [server.js]) *)

Definition PORT : string := "3000".
Definition API_KEY : string := "codemaze_oracle_secret_2025".
Definition DATA_DIR : string := "./data".
Definition QUESTIONS_DIR : string := path.join [DATA_DIR; "questions"].
Definition ALLOWED_FOLDERS : list string := ["profileimages"; "resumes"].

(** [s.endsWith (suffix)] *)
Definition endsWith (s suffix : string) : bool :=
  let n := String.length s in
  let m := String.length suffix in
  if decide (m ≤ n)%nat
  then bool_decide (String.substring (n - m) m s = suffix)
  else false.

(** [requireApiKey]: the key is [req.headers['x-api-key'] || req.query.apiKey],
    compared with [!==]; only a string can equal the configured key, so a
    query parameter parsed into an array or an object counts as a wrong
    key and is left out here. *)
Definition requireApiKey (header query : option string)
    (next : world -> response * world) : world -> response * world :=
  fun w =>
    let key := match header with
               | Some h => if bool_decide (h = "") then query else Some h
               | None => query
               end in
    if bool_decide (key = Some API_KEY) then next w
    else (failure 401 "Invalid or missing API key", w).

(** ** Question routes *)

Definition record_path (id : string) : string :=
  path.join [QUESTIONS_DIR; id ++ ".json"].
Arguments record_path : simpl never.

(** The metadata projection of [GET /questions]. *)
Definition summary (data : json) : outcome json :=
  try! _id <- get_prop data "_id";
  try! title <- get_prop data "title";
  try! slug <- get_prop data "slug";
  try! difficulty <- get_prop data "difficulty";
  try! tags <- get_prop data "tags";
  try! companies <- get_prop data "companies";
  try! createdAt <- get_prop data "createdAt";
  try! updatedAt <- get_prop data "updatedAt";
  Done (object [("_id", _id); ("title", title); ("slug", slug);
                ("difficulty", difficulty); ("tags", tags);
                ("companies", companies); ("createdAt", createdAt);
                ("updatedAt", updatedAt)]).

Definition record_files (w : world) : outcome (list string) :=
  try! names <- fs.readdirSync w QUESTIONS_DIR;
  Done (filter (fun f => endsWith f ".json" = true) names).

Definition read_record (w : world) (file : string) : outcome json :=
  try! text <- fs.readFileSync w (path.join [QUESTIONS_DIR; file]);
  JSON_parse text.

(** [GET /questions] *)
Definition listQuestions (w : world) : response :=
  try_catch_ro
    (try! files <- record_files w;
     try! questions <- mapM (fun file => try! data <- read_record w file;
                                         summary data) files;
     Done (listed questions))
    "Failed to list questions".

(** [GET /questions/:id] *)
Definition getQuestion (w : world) (id : string) : response :=
  try_catch_ro
    (let filePath := record_path id in
     if negb (fs.existsSync w filePath)
     then Done (failure 404 "Question not found")
     else
       try! text <- fs.readFileSync w filePath;
       try! question <- JSON_parse text;
       Done (found question))
    "Failed to get question".

(** The loop of [GET /questions/slug/:slug]: the first record whose [slug]
    is strictly equal to the requested one. *)
Fixpoint slug_scan (w : world) (slug : string) (files : list string)
  : outcome response :=
  match files with
  | [] => Done (failure 404 "Question not found")
  | file :: rest =>
      try! data <- read_record w file;
      try! s <- get_prop data "slug";
      match s with
      | Some (JStr s') =>
          if bool_decide (s' = slug)
          then Done (found data)
          else slug_scan w slug rest
      | _ => slug_scan w slug rest
      end
  end.

(** [GET /questions/slug/:slug] *)
Definition getQuestionBySlug (w : world) (slug : string) : response :=
  try_catch_ro
    (try! files <- record_files w; slug_scan w slug files)
    "Failed to get question".

(** [GET /questions/:id/testcases] *)
Definition getTestCases (w : world) (id : string) : response :=
  try_catch_ro
    (let filePath := record_path id in
     if negb (fs.existsSync w filePath)
     then Done (failure 404 "Question not found")
     else
       try! text <- fs.readFileSync w filePath;
       try! question <- JSON_parse text;
       try! testCases <- get_prop question "testCases";
       try! timeLimit <- get_prop question "timeLimit";
       try! memoryLimit <- get_prop question "memoryLimit";
       Done (found (object [("testCases", Some (or_else testCases (JArr [])));
                            ("timeLimit", timeLimit);
                            ("memoryLimit", memoryLimit)])))
    "Failed to get test cases".

(** The document [POST /questions] stores: the body with [_id],
    [createdAt] and [updatedAt] assigned, and the identifier chosen. *)
Definition stamp (body : json) (rnd now1 now2 : string) : outcome (json * json) :=
  try! _id <- get_prop body "_id";
  let id := or_else _id (JStr rnd) in
  let questionData := set_prop body "_id" id in
  try! createdAt <- get_prop questionData "createdAt";
  let questionData := set_prop questionData "createdAt" (or_else createdAt (JStr now1)) in
  let questionData := set_prop questionData "updatedAt" (JStr now2) in
  Done (id, questionData).

Definition created (id : json) (name : string) : response :=
  acknowledged 201 "Question created"
    (Some (object
       [("_id", Some id);
        ("questionUrl",
         Some (JStr ("http://localhost:" ++ PORT ++ "/questions/" ++ name)))])).

(** [POST /questions], behind the key check.  [rnd] is the random
    identifier, [now1] and [now2] the two clock readings. *)
Definition createQuestion (body : json) (rnd now1 now2 : string)
  : world -> response * world :=
  try_catch
    (do! st <- lift (stamp body rnd now1 now2);
     let id := st.1 in
     let questionData := st.2 in
     do! name <- lift (toStr id);
     let filePath := record_path name in
     do! found <- existsM filePath;
     if found
     then ret (failure 409 "Question with this ID already exists")
     else
       do! _ <- writeM filePath (JSON_stringify questionData);
       do! title <- lift (get_prop questionData "title");
       do! _ <- lift (toStr_opt title);
       ret (created id name))
    "Failed to create question".

(** The merge of [PUT /questions/:id]:
    [{ ...existingData, ...req.body, _id: id, createdAt: existingData.createdAt, updatedAt }]. *)
Definition merge (existingData body : json) (id : string)
    (createdAt : option json) (now : string) : json :=
  JObj (<["updatedAt" := JStr now]>
          (put "createdAt" createdAt
             (<["_id" := JStr id]> (own_props body ∪ own_props existingData)))).

(** [PUT /questions/:id], behind the key check. *)
Definition updateQuestion (id : string) (body : json) (now : string)
  : world -> response * world :=
  try_catch
    (let filePath := record_path id in
     do! found <- existsM filePath;
     if negb found
     then ret (failure 404 "Question not found")
     else
       do! text <- readM filePath;
       do! existingData <- lift (JSON_parse text);
       do! createdAt <- lift (get_prop existingData "createdAt");
       let updatedData := merge existingData body id createdAt now in
       do! _ <- writeM filePath (JSON_stringify updatedData);
       do! title <- lift (get_prop updatedData "title");
       do! _ <- lift (toStr_opt title);
       ret (acknowledged 200 "Question updated" (Some updatedData)))
    "Failed to update question".

(** [DELETE /questions/:id], behind the key check. *)
Definition deleteQuestion (id : string) : world -> response * world :=
  try_catch
    (let filePath := record_path id in
     do! found <- existsM filePath;
     if negb found
     then ret (failure 404 "Question not found")
     else
       do! text <- readM filePath;
       do! data <- lift (JSON_parse text);
       do! _ <- unlinkM filePath;
       do! title <- lift (get_prop data "title");
       do! _ <- lift (toStr_opt title);
       ret (acknowledged 200 "Question deleted" None))
    "Failed to delete question".

(** The loop of [POST /questions/bulk]; [now i] is the clock reading taken
    for the record at position [i]. *)
Fixpoint bulk_loop (now : nat -> string) (i : nat) (questions : list json)
    (created skipped : nat) : M (nat * nat) :=
  match questions with
  | [] => ret (created, skipped)
  | q :: rest =>
      do! id <- lift (get_prop q "_id");
      if negb (truthy id)
      then bulk_loop now (S i) rest created (S skipped)
      else
        do! name <- lift (toStr_opt id);
        let filePath := record_path name in
        do! found <- existsM filePath;
        if found
        then bulk_loop now (S i) rest created (S skipped)
        else
          let q' := set_prop q "updatedAt" (JStr (now i)) in
          do! _ <- writeM filePath (JSON_stringify q');
          bulk_loop now (S i) rest (S created) skipped
  end.

(** [POST /questions/bulk], behind the key check. *)
Definition bulkImport (body : json) (now : nat -> string)
  : world -> response * world :=
  try_catch
    (do! questions <- lift (get_prop body "questions");
     match questions with
     | Some (JArr qs) =>
         do! counts <- bulk_loop now 0 qs 0 0;
         ret (imported counts.1 counts.2)
     | _ => ret (failure 400 "questions must be an array")
     end)
    "Bulk import failed".

(** ** File routes *)

Definition blob_path (folder filename : string) : string :=
  let safeName := path.basename filename in
  path.join [DATA_DIR; folder; safeName].
Arguments blob_path : simpl never.

(** A name that starts with a dot and is longer than the dot. *)
Definition dotfile (name : string) : bool :=
  match name with
  | String c (String _ _) => bool_decide (c = "."%char)
  | _ => false
  end.

(** [res.sendFile (path.resolve (filePath))], called without options, for
    a request without conditional or range headers: a path whose last
    segment is a dotfile is declined with status 404 before the volume is
    looked at; a regular file is streamed; for a directory the transport
    reports EISDIR and Express moves on to the next route, of which there
    is none. *)
Definition sendFile (w : world) (filePath : string) : response :=
  let k := fs.resolve w filePath in
  if dotfile (default "" (last k)) then NotFound
  else
    match fs.node_at w k with
    | Some (File c) => SendFile c
    | Some Dir => NoRoute
    | None => NotFound
    end.

(** [GET /files/:folder/:filename], behind the key check. *)
Definition serveFile (w : world) (folder filename : string) : response :=
  if negb (bool_decide (folder ∈ ALLOWED_FOLDERS))
  then failure 400 "Invalid folder"
  else
    let filePath := blob_path folder filename in
    if negb (fs.existsSync w filePath)
    then failure 404 "File not found"
    else sendFile w filePath.

(** [DELETE /files/:folder/:filename], behind the key check; the handler
    has no [try]. *)
Definition deleteFile (folder filename : string) : world -> response * world :=
  fun w =>
    if negb (bool_decide (folder ∈ ALLOWED_FOLDERS))
    then (failure 400 "Invalid folder", w)
    else
      let filePath := blob_path folder filename in
      if negb (fs.existsSync w filePath)
      then (failure 404 "File not found", w)
      else
        match fs.unlinkSync w filePath with
        | Done w' => (acknowledged 200 "File deleted" None, w')
        | Thrown e => (Unhandled e, w)
        end.

(** ** Routes behind the key check *)

Definition POST_questions (header query : option string) (body : json)
    (rnd now1 now2 : string) : world -> response * world :=
  requireApiKey header query (createQuestion body rnd now1 now2).

Definition PUT_question (header query : option string) (id : string)
    (body : json) (now : string) : world -> response * world :=
  requireApiKey header query (updateQuestion id body now).

Definition DELETE_question (header query : option string) (id : string)
  : world -> response * world :=
  requireApiKey header query (deleteQuestion id).

Definition POST_questions_bulk (header query : option string) (body : json)
    (now : nat -> string) : world -> response * world :=
  requireApiKey header query (bulkImport body now).

Definition GET_file (header query : option string) (folder filename : string)
  : world -> response * world :=
  requireApiKey header query (fun w => (serveFile w folder filename, w)).

Definition DELETE_file (header query : option string) (folder filename : string)
  : world -> response * world :=
  requireApiKey header query (deleteFile folder filename).


(** ** Start-up *)

(** [fs.mkdirSync (p, { recursive: true })] over the segments [rest] below
    the directory [done]: a missing directory on the way is created, an
    existing one is entered, and a regular file on the way or a name the
    volume does not take makes the call throw ([None]: the exception is not
    caught and the process ends). *)
Fixpoint mkdirs (t : gmap (list string) node) (done rest : list string)
  : option (gmap (list string) node) :=
  match rest with
  | [] => Some t
  | seg :: rest' =>
      let k := (done ++ [seg])%list in
      match t !! k with
      | Some Dir => mkdirs t k rest'
      | Some (File _) => None
      | None =>
          if decide (String.length seg ≤ fs.NAME_MAX)%nat
          then mkdirs (<[k := Dir]> t) k rest'
          else None
      end
  end.

Definition mkdirSync (w : world) (p : string) : option world :=
  if fs.has_nul p then None
  else World (cwd w) <$> mkdirs (tree w) [] (fs.resolve w p).

(** [if (!fs.existsSync (p)) fs.mkdirSync (p, { recursive: true })] *)
Definition ensure_dir (w : world) (p : string) : option world :=
  if fs.existsSync w p then Some w else mkdirSync w p.

(** The statements that run before the routes are set up. *)
Definition startup (w : world) : option world :=
  w1 ← ensure_dir w DATA_DIR;
  w2 ← ensure_dir w1 QUESTIONS_DIR;
  fold_left (fun ow folder =>
               w' ← ow; ensure_dir w' (path.join [DATA_DIR; folder]))
            ALLOWED_FOLDERS (Some w2).

(** ** Health check *)

(** The body of the health check. *)
Definition healthy (timestamp : string) (questionsCount : nat) (uptime : string)
  : response :=
  Reply 200 (object [("status", Some (JStr "ok"));
                     ("timestamp", Some (JStr timestamp));
                     ("questionsCount", Some (num questionsCount));
                     ("uptime", Some (JNum uptime))]).

(** [GET /health]; the handler has no [try].  [timestamp] is the clock
    reading and [uptime] the rendering of [process.uptime ()]. *)
Definition health (w : world) (timestamp uptime : string) : response :=
  match fs.readdirSync w QUESTIONS_DIR with
  | Done names =>
      let questionsCount :=
        length (filter (fun f => endsWith f ".json" = true) names) in
      healthy timestamp questionsCount uptime
  | Thrown e => Unhandled e
  end.

(** ** Upload and listing of files *)

(** [path.extname (p)]: the part of the last non-empty segment from its
    last dot on; empty when the segment has no dot, when its only dot is
    its first character, and for the segment [".."]. *)
Fixpoint from_last_dot (s : string) : option string :=
  match s with
  | EmptyString => None
  | String c s' =>
      match from_last_dot s' with
      | Some ext => Some ext
      | None => if bool_decide (c = "."%char) then Some s else None
      end
  end.

Definition extname (p : string) : string :=
  let b := path.basename p in
  match from_last_dot b with
  | Some ext =>
      if bool_decide (ext = b ∨ b = "..") then "" else ext
  | None => ""
  end.

(** [s.startsWith (prefix)] *)
Definition startsWith (s prefix : string) : bool := String.prefix prefix s.

(** The [fileFilter] of the upload: [None] accepts the file, [Some msg]
    rejects it with [new Error (msg)]. *)
Definition fileFilter (folder mimetype : string) : option string :=
  if negb (bool_decide (folder ∈ ALLOWED_FOLDERS))
  then Some ("Folder '" ++ folder ++ "' is not allowed")
  else if bool_decide (folder = "profileimages")
  then (if negb (startsWith mimetype "image/")
        then Some "Only image files are allowed for profile images"
        else None)
  else if bool_decide (folder = "resumes")
  then (if negb (startsWith mimetype "image/")
           && negb (bool_decide (mimetype = "application/pdf"))
        then Some "Only images and PDFs are allowed for resumes"
        else None)
  else None.

(** The [filename] of the disk storage: [`${uuidv4 ()}${ext}`]. *)
Definition uniqueName (uuid originalname : string) : string :=
  uuid ++ extname originalname.

(** [limits.fileSize] *)
Definition fileSize : nat := 5 * 1024 * 1024.

(** The file part of a multipart request, under the field name [file]:
    its declared name and content type, its bytes and their number. *)
Record part := Part {
  originalname : string;
  mimetype : string;
  bytes : content;
  size : nat
}.

(** The message of the exception a failed [open] raises.  For a path the
    runtime refuses because of a NUL character the text depends on the
    version of the runtime and is left at the name of the exception. *)
Definition open_message (e : error) (p : string) : string :=
  match e with
  | ENOENT => "ENOENT: no such file or directory, open '" ++ p ++ "'"
  | ENOTDIR => "ENOTDIR: not a directory, open '" ++ p ++ "'"
  | EISDIR => "EISDIR: illegal operation on a directory, open '" ++ p ++ "'"
  | ENAMETOOLONG => "ENAMETOOLONG: name too long, open '" ++ p ++ "'"
  | TypeError => "TypeError"
  | SyntaxError => "SyntaxError"
  end.

(** The success body of the upload. *)
Definition uploaded (url filename folder : string) (size : nat)
    (mimetype : string) : response :=
  Reply 201 (object
    [("success", Some (JBool true));
     ("data", Some (object [("url", Some (JStr url));
                            ("filename", Some (JStr filename));
                            ("folder", Some (JStr folder));
                            ("size", Some (num size));
                            ("mimetype", Some (JStr mimetype))]))]).

(** [POST /files/:folder], behind the key check.  [fileUpload.single
    ('file')] works as follows: without a file part it leaves [req.file]
    undefined; with one it asks [fileFilter], then writes the bytes to
    [destination/filename]; a file longer than [limits.fileSize] (documented
    as the largest size let through) is removed again and reported as an
    error.  [uuid] is the value of [uuidv4 ()],
    [protocol] and [host] are [req.protocol] and [req.get ('host')]. *)
Definition uploadFile (protocol host folder : string) (file : option part)
    (uuid : string) : world -> response * world :=
  fun w =>
    match file with
    | None => (failure 400 "No file uploaded", w)
    | Some f =>
        match fileFilter folder (mimetype f) with
        | Some msg => (failure 400 msg, w)
        | None =>
            let dir := path.join [DATA_DIR; folder] in
            let filename := uniqueName uuid (originalname f) in
            let finalPath := path.join [dir; filename] in
            match fs.writeFileSync w finalPath (bytes f) with
            | Thrown e => (failure 400 (open_message e finalPath), w)
            | Done w' =>
                if decide (size f ≤ fileSize)%nat
                then
                  let fileUrl := protocol ++ "://" ++ host ++ "/files/" ++ folder
                                 ++ "/" ++ filename ++ "?apiKey=" ++ API_KEY in
                  (uploaded fileUrl filename folder (size f) (mimetype f), w')
                else
                  (failure 400 "File too large",
                   match fs.unlinkSync w' finalPath with
                   | Done w'' => w''
                   | Thrown _ => w'
                   end)
            end
        end
    end.

(** [fs.statSync (p).size], where [bytes_of] is the size the volume
    reports for an entry. *)
Definition statSync_size (bytes_of : node -> nat) (w : world) (p : string)
  : outcome nat :=
  if fs.has_nul p then Thrown TypeError
  else
    match fs.node_at w (fs.resolve w p) with
    | Some n => Done (bytes_of n)
    | None => Thrown ENOENT
    end.

(** The entry of one file in the listing, and the body of the listing. *)
Definition file_entry (protocol host folder f : string) (size : nat) : json :=
  object [("filename", Some (JStr f));
          ("url", Some (JStr (protocol ++ "://" ++ host ++ "/files/"
                              ++ folder ++ "/" ++ f)));
          ("size", Some (num size))].

Definition files_listed (files : list json) : response :=
  Reply 200 (object [("success", Some (JBool true));
                     ("count", Some (num (length files)));
                     ("data", Some (JArr files))]).

(** [GET /files/:folder], behind the key check; the handler has no [try]. *)
Definition listFiles (bytes_of : node -> nat) (protocol host : string)
    (w : world) (folder : string) : response :=
  if negb (bool_decide (folder ∈ ALLOWED_FOLDERS))
  then failure 400 "Invalid folder"
  else
    let folderPath := path.join [DATA_DIR; folder] in
    match
      (try! names <- fs.readdirSync w folderPath;
       mapM (fun f =>
               try! n <- statSync_size bytes_of w (path.join [folderPath; f]);
               Done (file_entry protocol host folder f n)) names)
    with
    | Done files => files_listed files
    | Thrown e => Unhandled e
    end.

Definition POST_file (header query : option string)
    (protocol host folder : string) (file : option part) (uuid : string)
  : world -> response * world :=
  requireApiKey header query (uploadFile protocol host folder file uuid).

Definition GET_files (header query : option string) (bytes_of : node -> nat)
    (protocol host folder : string) : world -> response * world :=
  requireApiKey header query
    (fun w => (listFiles bytes_of protocol host w folder, w)).

(** ** Vocabulary of the statements *)

(** A path segment that names an entry: not empty, not ["."], not [".."]. *)
Definition proper (seg : string) : Prop := seg ≠ "" ∧ seg ≠ "." ∧ seg ≠ "..".

Definition no_sep (s : string) : Prop := path.has_sep s = false.

(** A value that is written as it is: it holds no number that is not
    finite. *)
Definition finite (v : json) : Prop := serialised v = v.

(** The three properties [POST /questions] assigns. *)
Definition reserved : gset string := {[ "_id"; "createdAt"; "updatedAt" ]}.

(** The properties of the document [stamp] builds from an object body. *)
Definition stamped (F : gmap string json) (rnd now1 now2 : string)
  : gmap string json :=
  <["updatedAt" := JStr now2]>
    (<["createdAt" := or_else (F !! "createdAt") (JStr now1)]>
       (<["_id" := or_else (F !! "_id") (JStr rnd)]> F)).

(** The properties [GET /questions] projects. *)
Definition metadata : gset string :=
  {[ "_id"; "title"; "slug"; "difficulty"; "tags"; "companies";
     "createdAt"; "updatedAt" ]}.

(** The document the bulk loop writes for record [q]. *)
Definition stamp_bulk (q : json) (now : string) : json :=
  set_prop q "updatedAt" (JStr now).

(** [w'] has every entry of [w], unchanged. *)
Definition grows (w w' : world) : Prop := cwd w' = cwd w ∧ tree w ⊆ tree w'.

(** The name under which the bulk loop files a record, when the record has
    an identifier. *)
Definition identifier (q : json) : option string :=
  match get_prop q "_id" with
  | Done id =>
      if truthy id
      then match toStr_opt id with
           | Done name => Some name
           | Thrown _ => None
           end
      else None
  | Thrown _ => None
  end.

(** The questions directory is in place. *)
Definition questions_ready (w : world) : Prop :=
  fs.node_at w (fs.resolve w QUESTIONS_DIR) = Some Dir.

(** A name the volume takes for a record file: it has no NUL character
    and, with the extension, at most [NAME_MAX] bytes. *)
Definition storable (name : string) : Prop :=
  fs.has_nul name = false ∧
  (String.length name + String.length ".json" ≤ fs.NAME_MAX)%nat.

(** A record with a separator-free identifier that the volume takes as a
    name and under which nothing is stored. *)
Definition fresh (w : world) (q : json) : Prop :=
  ∃ name, identifier q = Some name ∧ no_sep name ∧ storable name ∧
          fs.existsSync w (record_path name) = false.

(** A record under whose identifier something is stored. *)
Definition stored (w : world) (q : json) : Prop :=
  ∃ name, identifier q = Some name ∧ fs.existsSync w (record_path name) = true.

(** The directory of a bucket, and the layout the start-up code creates:
    the data directory with one directory per bucket. *)
Definition bucket (w : world) (folder : string) : list string :=
  (cwd w ++ ["data"; folder])%list.

Definition layout (w : world) : Prop :=
  fs.node_at w (cwd w ++ ["data"])%list = Some Dir ∧
  ∀ folder, folder ∈ ALLOWED_FOLDERS -> fs.node_at w (bucket w folder) = Some Dir.

Definition body_of (r : response) : json :=
  match r with
  | Reply _ body => body
  | _ => JNull
  end.

(** Nothing is stored under [k], or a directory is: no regular file is in
    the way of a directory there. *)
Definition dir_or_absent (w : world) (k : list string) : Prop :=
  ∀ c, fs.node_at w k ≠ Some (File c).

(** [w'] has every entry of [w], unchanged, and whatever it has beyond
    them is a directory. *)
Definition extends_with_dirs (w w' : world) : Prop :=
  grows w w' ∧ ∀ k n, tree w' !! k = Some n -> tree w !! k = Some n ∨ n = Dir.

(** The paths the start-up code visits, in order. *)
Definition start_paths : list string :=
  DATA_DIR :: QUESTIONS_DIR
  :: map (fun folder => path.join [DATA_DIR; folder]) ALLOWED_FOLDERS.

Definition ensure_all (ps : list string) (w : world) : option world :=
  fold_left (fun ow p => w' ← ow; ensure_dir w' p) ps (Some w).

(** The request carries the configured key: in the header, or in the query
    string when the header is absent or empty. *)
Definition carries_key (header query : option string) : Prop :=
  header = Some API_KEY ∨
  ((header = None ∨ header = Some "") ∧ query = Some API_KEY).

(** The properties [GET /questions/:id/testcases] projects. *)
Definition limits : gset string := {[ "testCases"; "timeLimit"; "memoryLimit" ]}.

(** A value of [uuidv4 ()] as far as the file name needs it: no separator,
    and a first character that is not a dot. *)
Definition token (s : string) : Prop :=
  no_sep s ∧ match s with
             | String c _ => c ≠ "."%char
             | EmptyString => False
             end.

(** What the upload filter lets through. *)
Definition accepted (folder mimetype : string) : Prop :=
  (folder = "profileimages" ∧ startsWith mimetype "image/" = true) ∨
  (folder = "resumes" ∧
   (startsWith mimetype "image/" = true ∨ mimetype = "application/pdf")).

(** ** A sample volume *)

(** The server started in [/srv]: the directories of the start-up code, one
    uploaded blob, one stored question, one damaged record, and one JSON
    file that lies beside the questions directory. *)
Definition sum_fields : gmap string json :=
  list_to_map [("_id", JStr "q1"); ("title", JStr "Two Sum");
               ("slug", JStr "two-sum");
               ("testCases", JArr [JStr "1 2"; JStr "3"]);
               ("createdAt", JStr "2025-01-01T00:00:00.000Z");
               ("updatedAt", JStr "2025-01-01T00:00:00.000Z")].

Definition sum_question : json := JObj sum_fields.

(** A payload as [express.json] parses [{"title": "Median", "timeLimit":
    1e999}]. *)
Definition out_of_range : gmap string json :=
  list_to_map [("title", JStr "Median"); ("timeLimit", JNum "Infinity")].

(** An identifier of 251 bytes: with the extension, one byte more than the
    volume takes. *)
Definition long_name : string := String.concat "" (repeat "a" 251).

Definition backup : json :=
  JObj (list_to_map [("secret", JStr "s3cr3t")]).

Definition empty_store : world :=
  World ["srv"]
    (list_to_map
       [(["srv"], Dir);
        (["srv"; "data"], Dir);
        (["srv"; "data"; "questions"], Dir);
        (["srv"; "data"; "profileimages"], Dir);
        (["srv"; "data"; "resumes"], Dir);
        (["srv"; "data"; "resumes"; "cv.pdf"], File (Bytes "%PDF-1.4"));
        (["srv"; "data"; "backup.json"], File (Doc backup))]).

Definition demo : world :=
  World ["srv"]
    (<[["srv"; "data"; "questions"; "q1.json"] := File (Doc sum_question)]>
       (tree empty_store)).


Definition damaged : world :=
  World ["srv"]
    (<[["srv"; "data"; "questions"; "zz.json"] := File (Bytes "{ oops")]>
       (tree demo)).
(** ** Proof automation *)

Ltac run :=
  unfold try_catch, try_catch_ro, bind, obind, lift, ret,
         existsM, readM, writeM, unlinkM.

#[local] Set Warnings "-clear-no-such-hyp".
(** ** Properties of the JavaScript helpers *)

Lemma put_lookup (k k' : string) (v : option json) (props : gmap string json) :
  put k v props !! k' = if decide (k = k') then v else props !! k'.
Proof.
  unfold put. destruct v as [x|].
  - rewrite lookup_insert. by destruct (decide (k = k')).
  - rewrite lookup_delete. by destruct (decide (k = k')).
Qed.

Lemma or_else_truthy (a : option json) (b : json) :
  truthy a = true -> Some (or_else a b) = a.
Proof. destruct a as [v|]; simpl; [|done]. intros H. unfold or_else. by rewrite H. Qed.

Lemma or_else_falsy (a : option json) (b : json) :
  truthy a = false -> or_else a b = b.
Proof. destruct a as [v|]; [|done]. intros H. unfold or_else. by rewrite H. Qed.

Lemma json_size_item (items : list json) (x : json) :
  x ∈ items -> json_size x < json_size (JArr items).
Proof.
  simpl. induction 1 as [x l|x y l _ IH]; simpl; lia.
Qed.

Lemma json_size_prop (props : gmap string json) (k : string) (x : json) :
  props !! k = Some x -> json_size x < json_size (JObj props).
Proof.
  intros Hk. simpl.
  rewrite <- (insert_delete_id props k x Hk).
  rewrite map_fold_insert_L.
  - lia.
  - intros. lia.
  - apply lookup_delete_eq.
Qed.

Lemma json_induction (P : json -> Prop) :
  P JNull -> (∀ b, P (JBool b)) -> (∀ r, P (JNum r)) -> (∀ s, P (JStr s)) ->
  (∀ items, Forall P items -> P (JArr items)) ->
  (∀ props, map_Forall (fun _ => P) props -> P (JObj props)) ->
  ∀ v, P v.
Proof.
  intros Hnull Hbool Hnum Hstr Harr Hobj v.
  remember (json_size v) as n eqn:Hn. revert v Hn.
  induction n as [n IH] using lt_wf_ind. intros v ->.
  destruct v; auto.
  - apply Harr. apply Forall_forall. intros x Hx.
    eapply IH; [|reflexivity]. by apply json_size_item.
  - apply Hobj. intros k x Hk.
    eapply IH; [|reflexivity]. by eapply json_size_prop.
Qed.

Lemma serialised_idemp (v : json) : serialised (serialised v) = serialised v.
Proof.
  induction v as [| | r | |items IH|props IH] using json_induction;
    simpl; try done.
  - destruct (non_finite r) eqn:E; simpl; [done|by rewrite E].
  - f_equal. induction IH as [|x l Hx _ IHl]; simpl; [done|].
    by rewrite Hx, IHl.
  - f_equal. rewrite <- map_fmap_compose. apply map_fmap_ext.
    intros k x Hk. simpl. by apply (IH k).
Qed.

Lemma serialised_lookup (props : gmap string json) (k : string) :
  (serialised <$> props) !! k = serialised <$> props !! k.
Proof. apply lookup_fmap. Qed.

Lemma sent_found (data : json) : sent (found data) = found (serialised data).
Proof.
  unfold found, object, sent. cbn [fold_left put fst snd serialised].
  by rewrite !fmap_insert, fmap_empty.
Qed.

Lemma sent_acknowledged (status : nat) (message : string) (data : json) :
  sent (acknowledged status message (Some data))
  = acknowledged status message (Some (serialised data)).
Proof.
  unfold acknowledged, object, sent. cbn [fold_left put fst snd serialised].
  by rewrite !fmap_insert, fmap_empty.
Qed.

Lemma sent_created (id : json) (name : string) :
  sent (created id name) = created (serialised id) name.
Proof.
  unfold created, acknowledged, object, sent.
  cbn [fold_left put fst snd serialised].
  rewrite !fmap_insert, fmap_empty. cbn [serialised].
  by rewrite !fmap_insert, fmap_empty.
Qed.
(** ** Properties of the path functions *)

Lemma split_nonempty (s : string) : path.split s ≠ [].
Proof.
  induction s as [|c s IH]; simpl; [done|].
  case_bool_decide; [done|]. by destruct (path.split s).
Qed.

Lemma split_no_sep (s : string) : path.has_sep s = false -> path.split s = [s].
Proof.
  induction s as [|c s IH]; simpl; [done|].
  case_bool_decide as Hc; simpl; [done|]. intros H. by rewrite IH.
Qed.

Lemma split_app (a b : string) :
  path.split (a ++ String "/" b) = (path.split a ++ path.split b)%list.
Proof.
  induction a as [|c a IH]; simpl; [done|].
  case_bool_decide; simpl; [by rewrite IH|].
  rewrite IH. pose proof (split_nonempty a). by destruct (path.split a).
Qed.

Lemma split_segments_no_sep (s seg : string) :
  seg ∈ path.split s -> path.has_sep seg = false.
Proof.
  revert seg. induction s as [|c s IH]; simpl; intros seg.
  - intros ->%list_elem_of_singleton. done.
  - case_bool_decide as Hc.
    + intros [->|Hin]%elem_of_cons; [done|]. by apply IH.
    + destruct (path.split s) as [|seg0 segs] eqn:E.
      * intros ->%list_elem_of_singleton. simpl. by rewrite bool_decide_eq_false_2.
      * intros [->|Hin]%elem_of_cons.
        -- simpl. rewrite bool_decide_eq_false_2 by done. simpl.
           apply IH. by left.
        -- apply IH. by right.
Qed.

Lemma basename_cases (p : string) :
  path.basename p = "" ∨ (path.basename p ≠ "" ∧ path.basename p ∈ path.split p).
Proof.
  unfold path.basename.
  destruct (last (filter (λ seg, seg ≠ "") (path.split p))) as [b|] eqn:E; simpl; [|by left].
  right. apply last_Some_elem_of in E. apply list_elem_of_filter in E. done.
Qed.

Lemma basename_no_sep (p : string) : path.has_sep (path.basename p) = false.
Proof.
  destruct (basename_cases p) as [->|[_ Hin]]; [done|].
  by eapply split_segments_no_sep.
Qed.

Lemma norm_step_proper (allow : bool) (res : list string) (seg : string) :
  proper seg -> path.norm_step allow res seg = (res ++ [seg])%list.
Proof.
  intros (H1 & H2 & H3). unfold path.norm_step.
  rewrite bool_decide_eq_false_2; [|intros [?|?]; done].
  by rewrite bool_decide_eq_false_2.
Qed.

Lemma append_cons (c : ascii) (a b : string) :
  String c a ++ b = String c (a ++ b).
Proof. reflexivity. Qed.

Lemma append_nonempty (a b : string) : b ≠ "" -> a ++ b ≠ "".
Proof. intros Hb. destruct a; [done|]. by rewrite append_cons. Qed.

Lemma length_append (a b : string) :
  String.length (a ++ b) = String.length a + String.length b.
Proof.
  induction a as [|c a IH]; [done|]. rewrite append_cons. simpl. by rewrite IH.
Qed.

Lemma json_name_proper (id : string) : proper (id ++ ".json").
Proof.
  repeat split; intros H; apply (f_equal String.length) in H;
    rewrite length_append in H; simpl in H; lia.
Qed.

Lemma has_sep_append (a b : string) :
  path.has_sep (a ++ b) = path.has_sep a || path.has_sep b.
Proof.
  induction a as [|c a IH]; [done|]. rewrite append_cons. simpl.
  rewrite IH. by rewrite orb_assoc.
Qed.

Lemma trailingSeparator_no_sep (s : string) :
  path.has_sep s = false -> path.trailingSeparator s = false.
Proof.
  unfold path.trailingSeparator.
  induction s as [|c s IH]; simpl; [done|].
  case_bool_decide as Hc; simpl; [done|]. intros H.
  destruct s as [|c' s']; simpl.
  - by rewrite bool_decide_eq_false_2.
  - specialize (IH H). simpl in IH. exact IH.
Qed.

Lemma trailingSeparator_append (a b : string) :
  b ≠ "" -> path.trailingSeparator (a ++ b) = path.trailingSeparator b.
Proof.
  intros Hb. unfold path.trailingSeparator.
  induction a as [|c a IH]; [done|]. rewrite append_cons. simpl.
  destruct (a ++ b) as [|c' s'] eqn:E.
  - by apply append_nonempty in E.
  - simpl in *. exact IH.
Qed.

Lemma append_empty_r (s : string) : s ++ "" = s.
Proof. induction s as [|c s IH]; [done|]. by rewrite append_cons, IH. Qed.

Lemma unsplit_cons (x y : string) (segs : list string) :
  path.unsplit (x :: y :: segs) = x ++ String "/" (path.unsplit (y :: segs)).
Proof. reflexivity. Qed.

Lemma split_unsplit (segs : list string) :
  segs ≠ [] -> Forall no_sep segs -> path.split (path.unsplit segs) = segs.
Proof.
  induction segs as [|x [|y segs] IH]; intros Hne Hall; [done| |].
  - apply split_no_sep. by inversion Hall.
  - rewrite unsplit_cons, split_app. inversion Hall as [|?? Hx Hrest]; subst.
    rewrite (split_no_sep x Hx), IH; done.
Qed.

Lemma isAbsolute_no_sep (x s : string) :
  x ≠ "" -> no_sep x -> path.isAbsolute (x ++ s) = false.
Proof.
  destruct x as [|c x]; [done|]. intros _ H. rewrite append_cons. simpl.
  unfold no_sep in H. simpl in H. apply orb_false_iff in H as [H _]. exact H.
Qed.

Lemma isAbsolute_unsplit (x : string) (segs : list string) :
  x ≠ "" -> no_sep x -> path.isAbsolute (path.unsplit (x :: segs)) = false.
Proof.
  intros Hx Hs. destruct segs as [|y segs].
  - simpl. rewrite <- (append_empty_r x). by apply isAbsolute_no_sep.
  - rewrite unsplit_cons. by apply isAbsolute_no_sep.
Qed.

Lemma trailingSeparator_unsplit (segs : list string) (z : string) :
  z ≠ "" -> no_sep z -> path.trailingSeparator (path.unsplit (segs ++ [z])) = false.
Proof.
  intros Hz Hs. induction segs as [|x segs IH]; simpl app.
  - simpl. by apply trailingSeparator_no_sep.
  - destruct (segs ++ [z])%list as [|y rest] eqn:E; [by destruct segs|].
    rewrite unsplit_cons.
    rewrite trailingSeparator_append.
    + assert (path.unsplit (y :: rest) ≠ "") as Hne.
      { intros Heq. rewrite Heq in IH. clear -E Hz Heq.
        revert y rest E Heq. induction segs as [|x' segs IH']; intros y rest E Heq.
        - simpl in E. injection E as <- <-. simpl in Heq. done.
        - simpl in E. injection E as <- <-.
          destruct (segs ++ [z])%list as [|y' rest'] eqn:E'; [by destruct segs|].
          rewrite unsplit_cons in Heq. by apply append_nonempty in Heq. }
      destruct (path.unsplit (y :: rest)) as [|c s] eqn:Eu; [done|].
      unfold path.trailingSeparator in *. simpl in *. exact IH.
    + done.
Qed.

Lemma resolve_unsplit (w : world) (x : string) (segs : list string) :
  x ≠ "" -> Forall no_sep (x :: segs) ->
  fs.resolve w (path.unsplit (x :: segs))
  = fold_left (path.norm_step false) (x :: segs) (cwd w).
Proof.
  intros Hx Hall. unfold fs.resolve.
  rewrite isAbsolute_unsplit; [|done|by inversion Hall].
  by rewrite split_unsplit.
Qed.

Lemma normalize_unsplit (x z : string) (segs : list string) :
  x ≠ "" -> z ≠ "" -> Forall no_sep (x :: segs ++ [z]) ->
  path.normalize (path.unsplit (x :: segs ++ [z]))
  = let res := path.unsplit (fold_left (path.norm_step true) (x :: segs ++ [z]) []) in
    if bool_decide (res = "") then "." else res.
Proof.
  intros Hx Hz Hall. unfold path.normalize.
  assert (no_sep x) as Hsx by (by inversion Hall).
  assert (no_sep z) as Hsz.
  { rewrite Forall_forall in Hall. apply Hall. set_solver. }
  rewrite bool_decide_eq_false_2.
  2:{ intros Heq. pose proof (isAbsolute_unsplit x (segs ++ [z]) Hx Hsx) as Ha.
      apply (f_equal path.split) in Heq. rewrite split_unsplit in Heq by done.
      simpl in Heq. congruence. }
  rewrite isAbsolute_unsplit by done. simpl negb.
  unfold path.normalizeString. rewrite split_unsplit by done.
  change (x :: segs ++ [z])%list with ((x :: segs) ++ [z])%list.
  rewrite trailingSeparator_unsplit by done.
  cbv zeta. case_bool_decide; [done|].
  change ("" ++ ?a) with a. apply append_empty_r.
Qed.

Lemma join_nonempty (parts : list string) :
  parts ≠ [] -> Forall (fun a => a ≠ "") parts ->
  path.join parts = path.normalize (path.unsplit parts).
Proof.
  intros Hne Hall. unfold path.join.
  assert (filter (λ a, a ≠ "") parts = parts) as ->.
  { clear Hne. induction Hall as [|a l Ha _ IH]; [done|].
    rewrite filter_cons_True by done. by rewrite IH. }
  by destruct parts.
Qed.

Lemma no_sep_json (id : string) : no_sep id -> no_sep (id ++ ".json").
Proof. unfold no_sep. intros H. by rewrite has_sep_append, H. Qed.

Lemma resolve_proper (w : world) (x : string) (segs : list string) :
  x ≠ "" -> Forall no_sep (x :: segs) -> Forall proper (x :: segs) ->
  fs.resolve w (path.unsplit (x :: segs)) = (cwd w ++ x :: segs)%list.
Proof.
  intros Hx Hs Hp. rewrite resolve_unsplit by done.
  clear Hx Hs. revert Hp. generalize (x :: segs) (cwd w). clear.
  intros l. induction l as [|y l IH]; intros k Hp; simpl.
  - by rewrite app_nil_r.
  - inversion Hp; subst. rewrite norm_step_proper by done.
    rewrite IH by done. by rewrite <- app_assoc.
Qed.

(** The path of an entry of the questions directory. *)
Lemma questions_child_path (name : string) :
  no_sep name -> proper name ->
  path.join [QUESTIONS_DIR; name] = "data/questions/" ++ name.
Proof.
  intros Hs (Hne & Hdot & Hdots).
  rewrite join_nonempty; [|done|by repeat constructor].
  change (path.unsplit [QUESTIONS_DIR; name])
    with (path.unsplit ("data" :: ["questions"] ++ [name])).
  rewrite normalize_unsplit; [|done|done|by repeat constructor].
  cbv zeta. change ("data" :: ["questions"] ++ [name])%list
    with (["data"; "questions"] ++ [name])%list.
  rewrite fold_left_app.
  change (fold_left (path.norm_step true) ["data"; "questions"] [])
    with ["data"; "questions"].
  cbn [fold_left]. rewrite norm_step_proper by done.
  by rewrite bool_decide_eq_false_2.
Qed.

Lemma resolve_questions_child (w : world) (name : string) :
  no_sep name -> proper name ->
  fs.resolve w (path.join [QUESTIONS_DIR; name])
  = (cwd w ++ ["data"; "questions"; name])%list.
Proof.
  intros Hs Hp. rewrite questions_child_path by done.
  change ("data/questions/" ++ name)
    with (path.unsplit ["data"; "questions"; name]).
  apply resolve_proper; [done| |]; repeat first [done | constructor].
Qed.

Lemma resolve_record_path (w : world) (id : string) :
  no_sep id ->
  fs.resolve w (record_path id)
  = (cwd w ++ ["data"; "questions"; id +:+ ".json"])%list.
Proof.
  intros Hid. apply resolve_questions_child.
  - by apply no_sep_json.
  - apply json_name_proper.
Qed.

Lemma resolve_questions_dir (w : world) :
  fs.resolve w QUESTIONS_DIR = (cwd w ++ ["data"; "questions"])%list.
Proof.
  change QUESTIONS_DIR with (path.unsplit ["data"; "questions"]).
  apply resolve_proper; repeat constructor; done.
Qed.
(** ** Properties of the file system calls *)

Lemma resolve_same_cwd (w w' : world) (p : string) :
  cwd w' = cwd w -> fs.resolve w' p = fs.resolve w p.
Proof. unfold fs.resolve. by intros ->. Qed.

Lemma write_inv (w w' : world) (p : string) (c : content) :
  fs.writeFileSync w p c = Done w' ->
  fs.resolve w p ≠ [] ∧
  w' = World (cwd w) (<[fs.resolve w p := File c]> (tree w)).
Proof.
  unfold fs.writeFileSync. intros H.
  destruct (fs.has_nul p); [done|].
  destruct (fs.resolve w p) as [|seg k] eqn:Ek; [done|].
  split; [done|].
  destruct (fs.node_at w (seg :: k)) as [[?|]|]; [congruence|done|].
  destruct (fs.node_at w (fs.parent (seg :: k))) as [[?|]|]; [congruence| |done].
  case_decide; congruence.
Qed.

Lemma write_accepted (w w' : world) (p : string) (c : content) :
  fs.writeFileSync w p c = Done w' -> fs.has_nul p = false.
Proof. unfold fs.writeFileSync. by destruct (fs.has_nul p). Qed.

Lemma write_any_content (w w' : world) (p : string) (c c' : content) :
  fs.writeFileSync w p c = Done w' ->
  fs.writeFileSync w p c'
  = Done (World (cwd w) (<[fs.resolve w p := File c']> (tree w))).
Proof.
  unfold fs.writeFileSync. destruct (fs.has_nul p); [done|]. cbv zeta.
  destruct (fs.node_at w (fs.resolve w p)) as [[?|]|]; [done|done|].
  destruct (fs.node_at w (fs.parent (fs.resolve w p))) as [[?|]|]; [done| |done].
  by case_decide.
Qed.

Lemma write_fresh (w : world) (p : string) (c : content) :
  fs.has_nul p = false ->
  fs.node_at w (fs.resolve w p) = None ->
  fs.node_at w (fs.parent (fs.resolve w p)) = Some Dir ->
  (String.length (default "" (last (fs.resolve w p))) ≤ fs.NAME_MAX)%nat ->
  fs.writeFileSync w p c
  = Done (World (cwd w) (<[fs.resolve w p := File c]> (tree w))).
Proof.
  unfold fs.writeFileSync. intros -> -> -> Hlen. by rewrite decide_True.
Qed.

Lemma write_over (w : world) (p : string) (c c' : content) :
  fs.has_nul p = false ->
  fs.node_at w (fs.resolve w p) = Some (File c') ->
  fs.writeFileSync w p c
  = Done (World (cwd w) (<[fs.resolve w p := File c]> (tree w))).
Proof. unfold fs.writeFileSync. by intros -> ->. Qed.

Lemma write_long_name (w : world) (p : string) (c : content) :
  fs.has_nul p = false ->
  fs.node_at w (fs.resolve w p) = None ->
  fs.node_at w (fs.parent (fs.resolve w p)) = Some Dir ->
  (fs.NAME_MAX < String.length (default "" (last (fs.resolve w p))))%nat ->
  fs.writeFileSync w p c = Thrown ENAMETOOLONG.
Proof.
  unfold fs.writeFileSync. intros -> -> -> Hlen. by rewrite decide_False by lia.
Qed.

Lemma node_at_insert (c : list string) (t : gmap (list string) node)
    (k k' : list string) (n : node) :
  k ≠ [] ->
  fs.node_at (World c (<[k := n]> t)) k'
  = if decide (k = k') then Some n else fs.node_at (World c t) k'.
Proof.
  intros Hk. destruct k' as [|s k']; simpl.
  - by rewrite decide_False.
  - by rewrite lookup_insert.
Qed.

Lemma node_at_delete (c : list string) (t : gmap (list string) node)
    (k k' : list string) :
  k ≠ [] ->
  fs.node_at (World c (delete k t)) k'
  = if decide (k = k') then None else fs.node_at (World c t) k'.
Proof.
  intros Hk. destruct k' as [|s k']; simpl.
  - by rewrite decide_False.
  - by rewrite lookup_delete.
Qed.

Lemma node_at_world (w : world) (k : list string) :
  fs.node_at (World (cwd w) (tree w)) k = fs.node_at w k.
Proof. by destruct w. Qed.

Lemma exists_false (w : world) (p : string) :
  fs.has_nul p = false ->
  fs.existsSync w p = false <-> fs.node_at w (fs.resolve w p) = None.
Proof.
  unfold fs.existsSync. intros ->.
  by destruct (fs.node_at w (fs.resolve w p)).
Qed.

Lemma exists_true (w : world) (p : string) :
  fs.existsSync w p = true <->
  fs.has_nul p = false ∧ ∃ n, fs.node_at w (fs.resolve w p) = Some n.
Proof.
  unfold fs.existsSync. destruct (fs.has_nul p); [naive_solver|].
  destruct (fs.node_at w (fs.resolve w p)); naive_solver.
Qed.

Lemma read_inv (w : world) (p : string) (c : content) :
  fs.readFileSync w p = Done c <->
  fs.has_nul p = false ∧ fs.node_at w (fs.resolve w p) = Some (File c).
Proof.
  unfold fs.readFileSync. destruct (fs.has_nul p); [naive_solver|].
  destruct (fs.node_at w (fs.resolve w p)) as [[?|]|]; naive_solver.
Qed.

Lemma read_exists (w : world) (p : string) (c : content) :
  fs.readFileSync w p = Done c -> fs.existsSync w p = true.
Proof. intros [? ?]%read_inv. apply exists_true. eauto. Qed.

Lemma has_nul_append (a b : string) :
  fs.has_nul (a ++ b) = fs.has_nul a || fs.has_nul b.
Proof.
  induction a as [|c a IH]; [done|]. rewrite append_cons. simpl.
  rewrite IH. by rewrite orb_assoc.
Qed.

Lemma read_after_write (w w' : world) (p : string) (c : content) :
  fs.writeFileSync w p c = Done w' ->
  fs.existsSync w' p = true ∧ fs.readFileSync w' p = Done c.
Proof.
  intros Hw. pose proof (write_accepted _ _ _ _ Hw) as Hv.
  apply write_inv in Hw as (Hk & ->).
  unfold fs.existsSync, fs.readFileSync. rewrite Hv.
  rewrite !(resolve_same_cwd w (World (cwd w) _)) by done.
  rewrite node_at_insert by done. by rewrite decide_True.
Qed.

Lemma record_path_string (name : string) :
  no_sep name -> record_path name = "data/questions/" ++ name ++ ".json".
Proof.
  intros Hs. apply questions_child_path; [by apply no_sep_json|].
  apply json_name_proper.
Qed.

Lemma has_nul_record_path (name : string) :
  no_sep name -> fs.has_nul (record_path name) = fs.has_nul name.
Proof.
  intros Hs. rewrite record_path_string by done.
  rewrite !has_nul_append. simpl. by rewrite orb_false_r.
Qed.
(** ** Create *)

Lemma create_run (body : json) (rnd now1 now2 : string) (w : world)
    (id doc : json) (name : string) :
  stamp body rnd now1 now2 = Done (id, doc) ->
  toStr id = Done name ->
  createQuestion body rnd now1 now2 w =
    if fs.existsSync w (record_path name)
    then (failure 409 "Question with this ID already exists", w)
    else match fs.writeFileSync w (record_path name) (JSON_stringify doc) with
         | Done w' =>
             (match (try! title <- get_prop doc "title"; toStr_opt title) with
              | Done _ => created id name
              | Thrown _ => failure 500 "Failed to create question"
              end, w')
         | Thrown _ => (failure 500 "Failed to create question", w)
         end.
Proof.
  intros Hs Hn. unfold createQuestion. run. rewrite Hs. cbn [fst snd]. rewrite Hn.
  destruct (fs.existsSync w (record_path name)); [done|].
  destruct (fs.writeFileSync w (record_path name) (JSON_stringify doc)); [|done].
  destruct (get_prop doc "title") as [title|]; [|done].
  by destruct (toStr_opt title).
Qed.

Lemma stamp_object (F : gmap string json) (rnd now1 now2 : string) :
  stamp (JObj F) rnd now1 now2
  = Done (or_else (F !! "_id") (JStr rnd),
          JObj (<["updatedAt" := JStr now2]>
                  (<["createdAt" := or_else (F !! "createdAt") (JStr now1)]>
                     (<["_id" := or_else (F !! "_id") (JStr rnd)]> F)))).
Proof.
  unfold stamp. simpl. by rewrite lookup_insert_ne.
Qed.

Lemma create_throws (body : json) (rnd now1 now2 : string) (w : world)
    (id doc : json) (e : error) :
  stamp body rnd now1 now2 = Done (id, doc) ->
  toStr id = Thrown e ->
  createQuestion body rnd now1 now2 w
  = (failure 500 "Failed to create question", w).
Proof.
  intros Hs Hn. unfold createQuestion. run. rewrite Hs. cbn [fst snd].
  by rewrite Hn.
Qed.

(** A create that answers 201 has found no entry under the record path
    and leaves the stamped document there, as serialised. *)
Lemma create_stores (w w' : world) (F : gmap string json)
    (rnd now1 now2 : string) (b : json) :
  createQuestion (JObj F) rnd now1 now2 w = (Reply 201 b, w') ->
  ∃ name : string,
    toStr (or_else (F !! "_id") (JStr rnd)) = Done name ∧
    Reply 201 b = created (or_else (F !! "_id") (JStr rnd)) name ∧
    fs.existsSync w (record_path name) = false ∧
    fs.writeFileSync w (record_path name)
      (Doc (JObj (serialised <$> stamped F rnd now1 now2)))
      = Done w'.
Proof.
  intros H. pose proof (stamp_object F rnd now1 now2) as Hs.
  destruct (toStr (or_else (F !! "_id") (JStr rnd))) as [name|e] eqn:Hn.
  2:{ rewrite (create_throws _ _ _ _ _ _ _ _ Hs Hn) in H. by unfold failure in H. }
  rewrite (create_run _ _ _ _ _ _ _ _ Hs Hn) in H. unfold failure in H.
  exists name. split; [done|].
  destruct (fs.existsSync w (record_path name)); [congruence|].
  fold (stamped F rnd now1 now2) in H.
  destruct (fs.writeFileSync w (record_path name) _) as [w1|]; [|congruence].
  destruct (try! title <- get_prop _ "title"; toStr_opt title);
    [|congruence].
  by injection H as <- <-.
Qed.

Lemma stamped_dom (F : gmap string json) (rnd now1 now2 : string) :
  dom (stamped F rnd now1 now2) = dom F ∪ reserved.
Proof. unfold stamped, reserved. rewrite !dom_insert_L. set_solver. Qed.

Lemma stamped_other (F : gmap string json) (rnd now1 now2 k : string) :
  k ∉ reserved -> stamped F rnd now1 now2 !! k = F !! k.
Proof.
  unfold stamped, reserved. intros Hk.
  rewrite !lookup_insert_ne; [done| | |]; set_solver.
Qed.

Lemma get_after_write (w w' : world) (name : string) (v : json) :
  fs.writeFileSync w (record_path name) (Doc v) = Done w' ->
  getQuestion w' name = found v.
Proof.
  intros [He Hr]%read_after_write. unfold getQuestion. run.
  by rewrite He, Hr.
Qed.

(** C4 (amended): a create of the field map [F] that answers 201, followed
    by a get of the identifier it reports, returns a record whose
    properties are those of [F] and [_id], [createdAt], [updatedAt], and no
    others; outside these three each value is that of [F] as serialised,
    which is the value of [F] unless it holds a number that is not finite,
    and [_id] is the reported identifier as serialised, which is also what
    the client reads in the answer of the create. *)
Theorem create_then_get (w w' : world) (F : gmap string json)
    (rnd now1 now2 : string) (b : json) :
  createQuestion (JObj F) rnd now1 now2 w = (Reply 201 b, w') ->
  ∃ (id : json) (name : string) (D : gmap string json),
    Reply 201 b = created id name ∧
    toStr id = Done name ∧
    getQuestion w' name = found (JObj D) ∧
    dom D = dom F ∪ reserved ∧
    (∀ k, k ∉ reserved -> D !! k = serialised <$> F !! k) ∧
    (∀ k v, k ∉ reserved -> F !! k = Some v -> finite v -> D !! k = Some v) ∧
    D !! "_id" = Some (serialised id) ∧
    sent (Reply 201 b) = created (serialised id) name ∧
    sent (getQuestion w' name) = found (JObj D).
Proof.
  intros (name & Hn & Hb & _ & Hw)%create_stores.
  exists (or_else (F !! "_id") (JStr rnd)), name,
         (serialised <$> stamped F rnd now1 now2).
  assert (getQuestion w' name
          = found (JObj (serialised <$> stamped F rnd now1 now2))) as Hget
    by (by eapply get_after_write).
  split_and!; try done.
  - rewrite dom_fmap_L. apply stamped_dom.
  - intros k Hk. by rewrite lookup_fmap, stamped_other.
  - intros k v Hk Hv Hfin. rewrite lookup_fmap, stamped_other by done.
    rewrite Hv. simpl. by rewrite Hfin.
  - rewrite lookup_fmap. unfold stamped.
    rewrite !lookup_insert_ne by done. by rewrite lookup_insert_eq.
  - rewrite Hb. apply sent_created.
  - rewrite Hget, sent_found.
    change (serialised (JObj (serialised <$> stamped F rnd now1 now2)))
      with (serialised (serialised (JObj (stamped F rnd now1 now2)))).
    by rewrite serialised_idemp.
Qed.

(** C9 (amended): the record a create stores keeps the [createdAt] of the
    payload when that value is truthy, as serialised (the value itself
    unless it holds a number that is not finite); it takes the first clock
    reading when [createdAt] is absent or falsy ([null], [false], [0], the
    empty string), and always takes the second clock reading as
    [updatedAt]. *)
Theorem create_timestamps (w w' : world) (F : gmap string json)
    (rnd now1 now2 : string) (b : json) :
  createQuestion (JObj F) rnd now1 now2 w = (Reply 201 b, w') ->
  ∃ (name : string) (D : gmap string json),
    toStr (or_else (F !! "_id") (JStr rnd)) = Done name ∧
    fs.readFileSync w' (record_path name) = Done (Doc (JObj D)) ∧
    (truthy (F !! "createdAt") = true ->
       D !! "createdAt" = serialised <$> F !! "createdAt") ∧
    (∀ v, F !! "createdAt" = Some v -> truthy (Some v) = true -> finite v ->
       D !! "createdAt" = Some v) ∧
    (truthy (F !! "createdAt") = false -> D !! "createdAt" = Some (JStr now1)) ∧
    D !! "updatedAt" = Some (JStr now2).
Proof.
  intros (name & Hn & Hb & _ & Hw)%create_stores.
  exists name, (serialised <$> stamped F rnd now1 now2).
  assert (truthy (F !! "createdAt") = true ->
          (serialised <$> stamped F rnd now1 now2) !! "createdAt"
          = serialised <$> F !! "createdAt") as Hkeep.
  { intros Ht. rewrite lookup_fmap. unfold stamped.
    rewrite lookup_insert_ne by done. rewrite lookup_insert_eq.
    by rewrite (or_else_truthy _ _ Ht). }
  split_and!.
  - done.
  - by apply read_after_write in Hw as [_ ?].
  - exact Hkeep.
  - intros v Hv Ht Hfin. rewrite Hv in Hkeep. rewrite (Hkeep Ht). simpl.
    by rewrite Hfin.
  - intros Ht. rewrite lookup_fmap. unfold stamped.
    rewrite lookup_insert_ne by done.
    rewrite lookup_insert_eq. by rewrite or_else_falsy.
  - rewrite lookup_fmap. unfold stamped. by rewrite lookup_insert_eq.
Qed.

(** Duplicate create. *)
Lemma create_conflict (body : json) (rnd now1 now2 : string) (w : world)
    (id doc : json) (name : string) :
  stamp body rnd now1 now2 = Done (id, doc) ->
  toStr id = Done name ->
  fs.existsSync w (record_path name) = true ->
  createQuestion body rnd now1 now2 w
  = (failure 409 "Question with this ID already exists", w).
Proof. intros Hs Hn He. rewrite (create_run _ _ _ _ _ _ _ _ Hs Hn). by rewrite He. Qed.
(** ** Update *)

Lemma update_stores (w : world) (id : string) (body existingData : json) (now : string)
    (createdAt : option json) :
  fs.readFileSync w (record_path id) = Done (Doc existingData) ->
  get_prop existingData "createdAt" = Done createdAt ->
  (updateQuestion id body now w).2
  = World (cwd w)
      (<[fs.resolve w (record_path id)
         := File (JSON_stringify (merge existingData body id createdAt now))]>
         (tree w)).
Proof.
  intros Hr Hc. unfold updateQuestion. run.
  pose proof (read_exists _ _ _ Hr) as He.
  apply read_inv in Hr as Hr'. destruct Hr' as [Hv Hn].
  rewrite He. simpl. rewrite Hr. simpl. rewrite Hc.
  erewrite write_over by done.
  by destruct (toStr_opt _).
Qed.

Lemma merge_fields (E : gmap string json) (body : json) (id now : string) :
  ∃ M : gmap string json,
    merge (JObj E) body id (E !! "createdAt") now = JObj M ∧
    M !! "_id" = Some (JStr id) ∧
    M !! "createdAt" = E !! "createdAt" ∧
    M !! "updatedAt" = Some (JStr now) ∧
    (∀ k, k ∉ reserved ->
       M !! k = match own_props body !! k with
                | Some v => Some v
                | None => E !! k
                end).
Proof.
  eexists. split; [reflexivity|]. split_and!.
  - rewrite lookup_insert_ne by done. rewrite put_lookup.
    rewrite decide_False by done. apply lookup_insert_eq.
  - rewrite lookup_insert_ne by done. rewrite put_lookup. by rewrite decide_True.
  - apply lookup_insert_eq.
  - intros k Hk. unfold reserved in Hk.
    rewrite lookup_insert_ne by set_solver. rewrite put_lookup.
    rewrite decide_False by set_solver.
    rewrite lookup_insert_ne by set_solver.
    rewrite lookup_union. simpl.
    destruct (own_props body !! k), (E !! k); done.
Qed.
(** ** Listing *)

Lemma mapM_Forall2 {A B} (f : A -> outcome B) (xs : list A) (ys : list B) :
  mapM f xs = Done ys -> Forall2 (fun x y => f x = Done y) xs ys.
Proof.
  revert ys. induction xs as [|x xs IH]; intros ys; simpl.
  - intros [= <-]. constructor.
  - unfold obind. destruct (f x) as [y|] eqn:Hy; [|done].
    destruct (mapM f xs) as [ys'|]; [|done].
    intros [= <-]. constructor; [done|]. by apply IH.
Qed.

Lemma mapM_throws {A B} (f : A -> outcome B) (xs : list A) (x : A) (e : error) :
  x ∈ xs -> f x = Thrown e -> ∃ e', mapM f xs = Thrown e'.
Proof.
  intros Hin Hx. induction Hin as [x xs|x y xs Hin IH]; simpl; unfold obind.
  - rewrite Hx. by eexists.
  - destruct (f y); [|by eexists]. destruct (IH Hx) as [e' ->]. by eexists.
Qed.

Lemma summary_fields (data e : json) :
  summary data = Done e ->
  ∃ m : gmap string json,
    e = JObj m ∧ dom m ⊆ metadata ∧
    (∀ k, k ∈ metadata -> get_prop data k = Done (m !! k)).
Proof.
  unfold summary, obind. intros H.
  assert (∃ g : string -> option json, ∀ k, get_prop data k = Done (g k)) as [g Hg].
  { destruct data as [| | | | |props];
      [done | by exists (fun _ => None) .. | by exists (fun k => props !! k)]. }
  rewrite !Hg in H. injection H as <-. unfold object. simpl.
  eexists. split; [reflexivity|]. split.
  - intros k [v Hk]%elem_of_dom. unfold metadata.
    rewrite !put_lookup in Hk.
    repeat (destruct (decide (_ = k)) as [<-|?]; [set_solver|]).
    by rewrite lookup_empty in Hk.
  - intros k Hk. rewrite Hg. f_equal. unfold metadata in Hk.
    rewrite !put_lookup.
    repeat (destruct (decide (_ = k)) as [<-|?]; [done|]).
    set_solver.
Qed.

(** C7: the listing either fails as a whole (500) or has one entry per
    record file, in scan order; each entry is an object whose properties
    lie within the metadata set and carry the values of the record, so no
    entry has a [testCases] property. *)
Theorem list_projects_metadata (w : world) :
  listQuestions w = failure 500 "Failed to list questions" ∨
  ∃ (files : list string) (entries : list json),
    record_files w = Done files ∧
    listQuestions w = listed entries ∧
    Forall2 (fun file e =>
               ∃ (data : json) (m : gmap string json),
                 read_record w file = Done data ∧
                 e = JObj m ∧
                 dom m ⊆ metadata ∧
                 m !! "testCases" = None ∧
                 (∀ k, k ∈ metadata -> get_prop data k = Done (m !! k)))
            files entries.
Proof.
  unfold listQuestions. run.
  destruct (record_files w) as [files|]; [|by left].
  destruct (mapM _ files) as [entries|] eqn:Hm; [|by left].
  right. exists files, entries. apply mapM_Forall2 in Hm.
  split; [done|]. split; [done|].
  - eapply Forall2_impl; [exact Hm|]. intros file e He. simpl in He.
    destruct (read_record w file) as [data|]; [|done].
    apply summary_fields in He as (m & -> & Hdom & Hval).
    exists data, m. split_and!; try done.
    apply not_elem_of_dom. intros Hin. apply Hdom in Hin.
    unfold metadata in Hin. set_solver.
Qed.
(** ** Scans over a damaged record *)

Lemma endsWith_json_proper (name : string) :
  endsWith name ".json" = true -> proper name.
Proof.
  unfold endsWith. case_decide as Hlen; [|done]. intros _. simpl in Hlen.
  repeat split; intros ->; simpl in Hlen; lia.
Qed.

Lemma readdir_child (w : world) (p name : string) (n : node) (names : list string) :
  tree w !! (fs.resolve w p ++ [name])%list = Some n ->
  fs.readdirSync w p = Done names -> name ∈ names.
Proof.
  intros Hn. unfold fs.readdirSync. destruct (fs.has_nul p); [done|].
  destruct (fs.node_at w (fs.resolve w p)) as [[c|]|]; [done| |done].
  intros [= <-].
  apply list_elem_of_omap. exists ((fs.resolve w p ++ [name])%list, n). split.
  - by apply elem_of_map_to_list.
  - unfold fs.child_name. simpl. rewrite last_snoc.
    by rewrite bool_decide_eq_true_2.
Qed.

Lemma read_record_malformed (w : world) (name raw : string) :
  no_sep name -> proper name ->
  tree w !! (cwd w ++ ["data"; "questions"; name])%list = Some (File (Bytes raw)) ->
  ∃ e, read_record w name = Thrown e.
Proof.
  intros Hs Hp Hn. unfold read_record, fs.readFileSync, obind.
  destruct (fs.has_nul _); [by eexists|].
  rewrite resolve_questions_child by done.
  unfold fs.node_at. destruct (cwd w ++ _)%list eqn:E; [by destruct (cwd w)|].
  rewrite Hn. by eexists.
Qed.

Lemma slug_scan_malformed (w : world) (slug name : string)
    (pre post : list string) (e0 : error) :
  Forall (fun f => ∀ data, read_record w f = Done data ->
                           get_prop data "slug" ≠ Done (Some (JStr slug))) pre ->
  read_record w name = Thrown e0 ->
  ∃ e, slug_scan w slug (pre ++ name :: post)%list = Thrown e.
Proof.
  intros Hpre Hbad. induction Hpre as [|f pre Hf _ IH]; simpl; unfold obind.
  - rewrite Hbad. by eexists.
  - destruct (read_record w f) as [data|] eqn:Hd; [|by eexists].
    specialize (Hf data eq_refl).
    destruct (get_prop data "slug") as [[[| | |s| |]|]|]; try done; try by eexists.
    case_bool_decide; [by subst|done].
Qed.

Lemma record_files_child (w : world) (name : string) (n : node) (files : list string) :
  endsWith name ".json" = true ->
  tree w !! (cwd w ++ ["data"; "questions"; name])%list = Some n ->
  record_files w = Done files -> name ∈ files.
Proof.
  intros He Hn. unfold record_files, obind.
  destruct (fs.readdirSync w QUESTIONS_DIR) as [names|] eqn:Hd; [|done].
  intros [= <-]. apply list_elem_of_filter. split; [done|].
  eapply readdir_child; [|exact Hd].
  rewrite resolve_questions_dir. rewrite <- app_assoc. exact Hn.
Qed.

(** C8: when a record file of the questions directory holds text that is
    not JSON, the listing answers 500; the file is among the files any scan
    visits; and a lookup by slug answers 500 whenever no file scanned
    before the damaged one matches the slug. *)
Theorem malformed_record_fails_scan (w : world) (name raw : string) :
  no_sep name ->
  endsWith name ".json" = true ->
  tree w !! (cwd w ++ ["data"; "questions"; name])%list = Some (File (Bytes raw)) ->
  listQuestions w = failure 500 "Failed to list questions" ∧
  (∀ files, record_files w = Done files -> name ∈ files) ∧
  (∀ (slug : string) (pre post : list string),
     record_files w = Done (pre ++ name :: post)%list ->
     Forall (fun f => ∀ data, read_record w f = Done data ->
                              get_prop data "slug" ≠ Done (Some (JStr slug))) pre ->
     getQuestionBySlug w slug = failure 500 "Failed to get question").
Proof.
  intros Hs He Hn. pose proof (endsWith_json_proper name He) as Hp.
  destruct (read_record_malformed w name raw Hs Hp Hn) as [e0 Hbad].
  split_and!.
  - unfold listQuestions, try_catch_ro.
    destruct (record_files w) as [files|] eqn:Hf; [|done].
    pose proof (record_files_child w name _ files He Hn Hf) as Hin.
    edestruct (mapM_throws (fun file => try! data <- read_record w file; summary data)
                 files name e0 Hin) as [e' He'].
    { unfold obind. by rewrite Hbad. }
    cbn [obind]. by rewrite He'.
  - intros files Hf. by eapply record_files_child.
  - intros slug pre post Hf Hpre. unfold getQuestionBySlug. run. rewrite Hf.
    by destruct (slug_scan_malformed w slug name pre post e0 Hpre Hbad) as [e ->].
Qed.
(** ** Bulk import *)

Lemma bulk_skip_no_id now i q rest c s w id :
  get_prop q "_id" = Done id -> truthy id = false ->
  bulk_loop now i (q :: rest) c s w = bulk_loop now (S i) rest c (S s) w.
Proof. intros Hid Ht. simpl. run. rewrite Hid. by rewrite Ht. Qed.

Lemma bulk_skip_existing now i q rest c s w id name :
  get_prop q "_id" = Done id -> truthy id = true -> toStr_opt id = Done name ->
  fs.existsSync w (record_path name) = true ->
  bulk_loop now i (q :: rest) c s w = bulk_loop now (S i) rest c (S s) w.
Proof.
  intros Hid Ht Hn He. simpl. run. rewrite Hid, Ht, Hn. simpl. by rewrite He.
Qed.

Lemma bulk_create now i q rest c s w w' id name :
  get_prop q "_id" = Done id -> truthy id = true -> toStr_opt id = Done name ->
  fs.existsSync w (record_path name) = false ->
  fs.writeFileSync w (record_path name) (JSON_stringify (stamp_bulk q (now i))) = Done w' ->
  bulk_loop now i (q :: rest) c s w = bulk_loop now (S i) rest (S c) s w'.
Proof.
  intros Hid Ht Hn He Hw. simpl. run. rewrite Hid, Ht, Hn. simpl. rewrite He.
  fold (stamp_bulk q (now i)). by rewrite Hw.
Qed.

Lemma bulk_write_fails now i q rest c s w id name e :
  get_prop q "_id" = Done id -> truthy id = true -> toStr_opt id = Done name ->
  fs.existsSync w (record_path name) = false ->
  fs.writeFileSync w (record_path name) (JSON_stringify (stamp_bulk q (now i))) = Thrown e ->
  bulk_loop now i (q :: rest) c s w = (Thrown e, w).
Proof.
  intros Hid Ht Hn He Hw. simpl. run. rewrite Hid, Ht, Hn. simpl. rewrite He.
  fold (stamp_bulk q (now i)). by rewrite Hw.
Qed.

Lemma grows_refl w : grows w w.
Proof. by split. Qed.

Lemma grows_trans w1 w2 w3 : grows w1 w2 -> grows w2 w3 -> grows w1 w3.
Proof. intros [H1 H2] [H3 H4]. split; [congruence|]. by etrans. Qed.

Lemma write_grows (w w' : world) (p : string) (c : content) :
  fs.existsSync w p = false -> fs.writeFileSync w p c = Done w' -> grows w w'.
Proof.
  intros He Hw. apply exists_false in He; [|by eapply write_accepted].
  apply write_inv in Hw as (Hk & ->). split; [done|]. simpl.
  apply insert_subseteq. unfold fs.node_at in He.
  by destruct (fs.resolve w p).
Qed.

Lemma bulk_loop_grows now qs : ∀ i c s w o w',
  bulk_loop now i qs c s w = (o, w') -> grows w w'.
Proof.
  induction qs as [|q qs IH]; intros i c s w o w'; simpl.
  - intros [= <- <-]. apply grows_refl.
  - run. destruct (get_prop q "_id") as [id|]; [|intros [= <- <-]; apply grows_refl].
    destruct (truthy id); simpl; [|apply IH].
    destruct (toStr_opt id) as [name|]; [|intros [= <- <-]; apply grows_refl].
    destruct (fs.existsSync w (record_path name)) eqn:He; [apply IH|].
    destruct (fs.writeFileSync w (record_path name) _) as [w1|] eqn:Hw;
      [|intros [= <- <-]; apply grows_refl].
    intros H%IH. eapply grows_trans; [|exact H]. by eapply write_grows.
Qed.

Lemma bulk_loop_app now pre post : ∀ i c s w c' s' w1,
  bulk_loop now i pre c s w = (Done (c', s'), w1) ->
  bulk_loop now i (pre ++ post) c s w
  = bulk_loop now (i + length pre) post c' s' w1.
Proof.
  induction pre as [|q pre IH]; intros i c s w c' s' w1; simpl.
  - intros [= <- <- <-]. by rewrite Nat.add_0_r.
  - run. destruct (get_prop q "_id") as [id|]; [|done].
    replace (i + S (length pre)) with (S i + length pre) by lia.
    destruct (truthy id); simpl; [|apply IH].
    destruct (toStr_opt id) as [name|]; [|done].
    destruct (fs.existsSync w (record_path name)); [apply IH|].
    destruct (fs.writeFileSync w (record_path name) _) as [w2|]; [|done].
    apply IH.
Qed.

Lemma grows_node (w w' : world) (k : list string) (n : node) :
  grows w w' -> fs.node_at w k = Some n -> fs.node_at w' k = Some n.
Proof.
  intros [_ Hsub]. destruct k as [|x k]; simpl; [done|].
  intros H. by eapply lookup_weaken.
Qed.

Lemma grows_read (w w' : world) (p : string) (c : content) :
  grows w w' -> fs.readFileSync w p = Done c -> fs.readFileSync w' p = Done c.
Proof.
  intros Hg. unfold fs.readFileSync. destruct (fs.has_nul p); [done|].
  rewrite (resolve_same_cwd w w') by apply Hg.
  destruct (fs.node_at w (fs.resolve w p)) as [[c'|]|] eqn:E; try done.
  intros [= ->]. by rewrite (grows_node _ _ _ _ Hg E).
Qed.

Lemma grows_exists (w w' : world) (p : string) :
  grows w w' -> fs.existsSync w p = true -> fs.existsSync w' p = true.
Proof.
  intros Hg. unfold fs.existsSync. destruct (fs.has_nul p); [done|].
  rewrite (resolve_same_cwd w w') by apply Hg.
  destruct (fs.node_at w (fs.resolve w p)) as [n|] eqn:E; [|done].
  by rewrite (grows_node _ _ _ _ Hg E).
Qed.

Lemma bulkImport_run (body : json) (now : nat -> string) (w : world) (qs : list json) :
  get_prop body "questions" = Done (Some (JArr qs)) ->
  bulkImport body now w
  = match bulk_loop now 0 qs 0 0 w with
    | (Done counts, w') => (imported counts.1 counts.2, w')
    | (Thrown _, w') => (failure 500 "Bulk import failed", w')
    end.
Proof.
  intros Hq. unfold bulkImport. run. rewrite Hq.
  by destruct (bulk_loop now 0 qs 0 0 w) as [[[c s]|] w'].
Qed.

(** C10: when the write of a record fails, the bulk import answers 500 with
    the error body alone (no counts), and the volume is the one the records
    before it left: nothing was taken away, every record written before
    the failure is still stored as written, and the record handed to
    [JSON.stringify] differs from the submitted one in [updatedAt] only, so
    it has a [createdAt] exactly when the submitted record had one. *)
Theorem bulk_import_not_atomic (body : json) (now : nat -> string) (w w1 : world)
    (pre post : list json) (q : json) (c s : nat)
    (id : option json) (name : string) (e : error) :
  get_prop body "questions" = Done (Some (JArr (pre ++ q :: post))) ->
  bulk_loop now 0 pre 0 0 w = (Done (c, s), w1) ->
  get_prop q "_id" = Done id -> truthy id = true -> toStr_opt id = Done name ->
  fs.existsSync w1 (record_path name) = false ->
  fs.writeFileSync w1 (record_path name) (JSON_stringify (stamp_bulk q (now (length pre))))
    = Thrown e ->
  bulkImport body now w = (failure 500 "Bulk import failed", w1) ∧
  grows w w1 ∧
  (∀ (pre1 pre2 : list json) (r : json) (c1 s1 : nat) (wa wb : world)
      (rid : option json) (rname : string),
     pre = (pre1 ++ r :: pre2)%list ->
     bulk_loop now 0 pre1 0 0 w = (Done (c1, s1), wa) ->
     get_prop r "_id" = Done rid -> truthy rid = true ->
     toStr_opt rid = Done rname ->
     fs.existsSync wa (record_path rname) = false ->
     fs.writeFileSync wa (record_path rname)
       (JSON_stringify (stamp_bulk r (now (length pre1)))) = Done wb ->
     fs.readFileSync w1 (record_path rname)
       = Done (JSON_stringify (stamp_bulk r (now (length pre1)))) ∧
     get_prop (stamp_bulk r (now (length pre1))) "createdAt"
       = get_prop r "createdAt").
Proof.
  intros Hq Hpre Hid Ht Hn He Hw. split_and!.
  - rewrite (bulkImport_run _ _ _ _ Hq).
    rewrite (bulk_loop_app _ _ _ _ _ _ _ _ _ _ Hpre). simpl plus.
    by rewrite (bulk_write_fails _ _ _ _ _ _ _ _ _ _ Hid Ht Hn He Hw).
  - by eapply bulk_loop_grows.
  - intros pre1 pre2 r c1 s1 wa wb rid rname -> H1 Hrid Hrt Hrn Hre Hrw. split.
    + rewrite (bulk_loop_app _ _ _ _ _ _ _ _ _ _ H1) in Hpre. simpl plus in Hpre.
      rewrite (bulk_create _ _ _ _ _ _ _ _ _ _ Hrid Hrt Hrn Hre Hrw) in Hpre.
      apply bulk_loop_grows in Hpre.
      eapply grows_read; [exact Hpre|]. by apply read_after_write in Hrw as [_ ?].
    + unfold stamp_bulk. destruct r; simpl; try done.
      by rewrite lookup_insert_ne.
Qed.

Lemma identifier_Some (q : json) (name : string) :
  identifier q = Some name ->
  ∃ id, get_prop q "_id" = Done id ∧ truthy id = true ∧ toStr_opt id = Done name.
Proof.
  unfold identifier. destruct (get_prop q "_id") as [id|]; [|done].
  destruct (truthy id) eqn:Ht; [|done].
  destruct (toStr_opt id) as [n|] eqn:Hn; [|done]. intros [= ->].
  exists id. by rewrite Hn.
Qed.

Lemma write_record_plain (w : world) (name : string) (c : content) :
  questions_ready w -> no_sep name -> storable name ->
  fs.existsSync w (record_path name) = false ->
  fs.writeFileSync w (record_path name) c
  = Done (World (cwd w)
            (<[(cwd w ++ ["data"; "questions"; name +:+ ".json"])%list := File c]>
               (tree w))).
Proof.
  intros Hq Hs [Hnul Hlen] He.
  assert (fs.has_nul (record_path name) = false) as Hv
    by (by rewrite has_nul_record_path).
  apply exists_false in He; [|done].
  rewrite write_fresh; [by rewrite resolve_record_path|done|done| |].
  - rewrite resolve_record_path by done.
    unfold questions_ready in Hq. rewrite resolve_questions_dir in Hq.
    unfold fs.parent.
    change (cwd w ++ ["data"; "questions"; name +:+ ".json"])%list
      with (cwd w ++ ["data"; "questions"] ++ [name +:+ ".json"])%list.
    rewrite app_assoc. by rewrite removelast_last.
  - rewrite resolve_record_path by done.
    change (cwd w ++ ["data"; "questions"; name +:+ ".json"])%list
      with (cwd w ++ ["data"; "questions"] ++ [name +:+ ".json"])%list.
    rewrite app_assoc, last_snoc. simpl default. by rewrite length_append.
Qed.

Lemma write_record_long (w : world) (name : string) (c : content) :
  questions_ready w -> no_sep name -> fs.has_nul name = false ->
  fs.existsSync w (record_path name) = false ->
  (fs.NAME_MAX < String.length name + String.length ".json")%nat ->
  fs.writeFileSync w (record_path name) c = Thrown ENAMETOOLONG.
Proof.
  intros Hq Hs Hnul He Hlen.
  assert (fs.has_nul (record_path name) = false) as Hv
    by (by rewrite has_nul_record_path).
  apply exists_false in He; [|done].
  apply write_long_name; [done|done| |].
  - rewrite resolve_record_path by done.
    unfold questions_ready in Hq. rewrite resolve_questions_dir in Hq.
    unfold fs.parent.
    change (cwd w ++ ["data"; "questions"; name +:+ ".json"])%list
      with (cwd w ++ ["data"; "questions"] ++ [name +:+ ".json"])%list.
    rewrite app_assoc. by rewrite removelast_last.
  - rewrite resolve_record_path by done.
    change (cwd w ++ ["data"; "questions"; name +:+ ".json"])%list
      with (cwd w ++ ["data"; "questions"] ++ [name +:+ ".json"])%list.
    rewrite app_assoc, last_snoc. simpl default. by rewrite length_append.
Qed.

Lemma append_inj_l (a b s : string) : a ++ s = b ++ s -> a = b.
Proof.
  revert b. induction a as [|c a IH]; intros [|d b] H; [done| | |].
  - apply (f_equal String.length) in H. change ("" ++ s) with s in H.
    rewrite append_cons in H. simpl in H. rewrite length_append in H. lia.
  - apply (f_equal String.length) in H. change ("" ++ s) with s in H.
    rewrite append_cons in H. simpl in H. rewrite length_append in H. lia.
  - rewrite !append_cons in H. injection H as -> H. f_equal. by apply IH.
Qed.

Lemma bulk_all_new (now : nat -> string) (qs : list json) : ∀ i c s w,
  questions_ready w -> Forall (fresh w) qs -> NoDup (omap identifier qs) ->
  ∃ w1, bulk_loop now i qs c s w = (Done (c + length qs, s), w1) ∧
        grows w w1 ∧ Forall (stored w1) qs.
Proof.
  induction qs as [|q qs IH]; intros i c s w Hq Hall Hnd.
  - exists w. simpl. rewrite Nat.add_0_r. split_and!; [done|apply grows_refl|done].
  - inversion Hall as [|?? (name & Hname & Hsep & Hst & He) Hrest]; subst.
    simpl in Hnd. rewrite Hname in Hnd. apply NoDup_cons in Hnd as [Hnotin Hnd].
    destruct (identifier_Some _ _ Hname) as (id & Hid & Ht & Hn).
    pose proof (write_record_plain w name (JSON_stringify (stamp_bulk q (now i)))
                  Hq Hsep Hst He) as Hw.
    set (k := (cwd w ++ ["data"; "questions"; name +:+ ".json"])%list) in *.
    set (w' := World (cwd w) (<[k := File (JSON_stringify (stamp_bulk q (now i)))]> (tree w))) in *.
    assert (k ≠ []) as Hk by (unfold k; by destruct (cwd w)).
    rewrite (bulk_create _ _ _ _ _ _ _ _ _ _ Hid Ht Hn He Hw).
    destruct (IH (S i) (S c) s w') as (w1 & Hloop & Hg & Hstored).
    + unfold questions_ready.
      rewrite (resolve_same_cwd w w') by done.
      unfold w'. rewrite node_at_insert by done. rewrite decide_False.
      * rewrite node_at_world. exact Hq.
      * rewrite resolve_questions_dir. unfold k. intros Heq.
        apply (f_equal length) in Heq. rewrite !length_app in Heq. simpl in Heq. lia.
    + rewrite Forall_forall in Hrest. apply Forall_forall.
      intros q' Hin.
      destruct (Hrest q' Hin) as (name' & Hname' & Hsep' & Hst' & He').
      exists name'. split_and!; try done.
      assert (fs.has_nul (record_path name') = false) as Hv'
        by (rewrite has_nul_record_path by done; apply Hst').
      apply exists_false; [done|]. rewrite (resolve_same_cwd w w') by done.
      unfold w'. rewrite node_at_insert by done. rewrite decide_False.
      * rewrite node_at_world. by apply exists_false.
      * rewrite resolve_record_path by done. unfold k. intros Heq.
        apply app_inv_head in Heq. injection Heq as Heq.
        apply append_inj_l in Heq. subst name'.
        apply Hnotin. apply list_elem_of_omap. by exists q'.
    + done.
    + exists w1. split_and!.
      * rewrite Hloop. do 2 f_equal. simpl. f_equal. lia.
      * eapply grows_trans; [|exact Hg]. by eapply write_grows.
      * constructor; [|done]. exists name. split; [done|].
        eapply grows_exists; [exact Hg|]. by apply read_after_write in Hw as [? _].
Qed.

Lemma bulk_all_stored (now : nat -> string) (qs : list json) : ∀ i c s w,
  Forall (stored w) qs ->
  bulk_loop now i qs c s w = (Done (c, s + length qs), w).
Proof.
  induction qs as [|q qs IH]; intros i c s w Hall; simpl length.
  - simpl. by rewrite Nat.add_0_r.
  - inversion Hall as [|?? (name & Hname & He) Hrest]; subst.
    destruct (identifier_Some _ _ Hname) as (id & Hid & Ht & Hn).
    rewrite (bulk_skip_existing _ _ _ _ _ _ _ _ _ Hid Ht Hn He).
    rewrite IH by done. do 3 f_equal. lia.
Qed.

(** C6 (amended): the bulk loop skips a record without a truthy [_id] and a
    record under whose identifier something is stored, leaving the volume
    as it is; otherwise it writes the record with [updatedAt] set and
    counts it as created; the import reports the two counts.  When the
    questions directory is in place and the records carry separator-free
    identifiers that the volume takes as names (no NUL character, at most
    [NAME_MAX] bytes with the extension), that are pairwise distinct and
    not yet stored, the first import reports [N] created and [0] skipped,
    and a second import of the same records reports [0] created and [N]
    skipped and changes nothing.  Under a fresh identifier whose name is
    too long for the volume the write throws, and the import answers 500. *)
Theorem bulk_import_counts (now : nat -> string) (w : world) :
  (∀ i q rest c s id,
     get_prop q "_id" = Done id -> truthy id = false ->
     bulk_loop now i (q :: rest) c s w = bulk_loop now (S i) rest c (S s) w) ∧
  (∀ i q rest c s name,
     identifier q = Some name ->
     fs.existsSync w (record_path name) = true ->
     bulk_loop now i (q :: rest) c s w = bulk_loop now (S i) rest c (S s) w) ∧
  (∀ i q rest c s name w',
     identifier q = Some name ->
     fs.existsSync w (record_path name) = false ->
     fs.writeFileSync w (record_path name) (JSON_stringify (stamp_bulk q (now i))) = Done w' ->
     bulk_loop now i (q :: rest) c s w = bulk_loop now (S i) rest (S c) s w') ∧
  (∀ body qs c s w',
     get_prop body "questions" = Done (Some (JArr qs)) ->
     bulk_loop now 0 qs 0 0 w = (Done (c, s), w') ->
     bulkImport body now w = (imported c s, w')) ∧
  (∀ body qs now',
     get_prop body "questions" = Done (Some (JArr qs)) ->
     questions_ready w ->
     Forall (fresh w) qs ->
     NoDup (omap identifier qs) ->
     ∃ w1,
       bulkImport body now w = (imported (length qs) 0, w1) ∧
       bulkImport body now' w1 = (imported 0 (length qs), w1)) ∧
  (∀ body q rest name,
     get_prop body "questions" = Done (Some (JArr (q :: rest))) ->
     questions_ready w ->
     identifier q = Some name -> no_sep name -> fs.has_nul name = false ->
     fs.existsSync w (record_path name) = false ->
     (fs.NAME_MAX < String.length name + String.length ".json")%nat ->
     bulkImport body now w = (failure 500 "Bulk import failed", w)).
Proof.
  split_and!.
  - intros. by eapply bulk_skip_no_id.
  - intros i q rest c s name (id & Hid & Ht & Hn)%identifier_Some He.
    by eapply bulk_skip_existing.
  - intros i q rest c s name w' (id & Hid & Ht & Hn)%identifier_Some He Hw.
    by eapply bulk_create.
  - intros body qs c s w' Hq Hloop. rewrite (bulkImport_run _ _ _ _ Hq).
    by rewrite Hloop.
  - intros body qs now' Hq Hready Hfresh Hnd.
    destruct (bulk_all_new now qs 0 0 0 w Hready Hfresh Hnd) as (w1 & Hloop & _ & Hst).
    exists w1. rewrite !(bulkImport_run _ _ _ _ Hq). rewrite Hloop.
    by rewrite (bulk_all_stored now' qs 0 0 0 w1 Hst).
  - intros body q rest name Hq Hready (id & Hid & Ht & Hn)%identifier_Some
      Hsep Hnul He Hlen.
    rewrite (bulkImport_run _ _ _ _ Hq).
    erewrite bulk_write_fails; [done..|].
    by apply write_record_long.
Qed.
(** ** Blob names *)

Lemma allowed_folder (folder : string) :
  folder ∈ ALLOWED_FOLDERS -> no_sep folder ∧ proper folder.
Proof.
  unfold ALLOWED_FOLDERS. intros H.
  apply elem_of_cons in H as [->|H]; [by repeat split|].
  apply list_elem_of_singleton in H as ->. by repeat split.
Qed.

Lemma blob_key (w : world) (folder filename : string) :
  folder ∈ ALLOWED_FOLDERS ->
  fs.resolve w (blob_path folder filename)
  = let b := path.basename filename in
    if decide (b = "" ∨ b = ".") then bucket w folder
    else if decide (b = "..") then (cwd w ++ ["data"])%list
    else (bucket w folder ++ [b])%list.
Proof.
  intros [Hfs Hfp]%allowed_folder. pose proof Hfp as (Hfne & Hfdot & Hfdots).
  cbv zeta. unfold blob_path, bucket.
  pose proof (basename_no_sep filename) as Hb.
  set (b := path.basename filename) in *.
  destruct (decide (b = "")) as [->|Hne].
  { rewrite decide_True by (by left).
    unfold path.join. rewrite filter_cons_True by done.
    rewrite filter_cons_True by done. rewrite filter_cons_False by (by intros ?).
    rewrite filter_nil.
    change (path.unsplit [DATA_DIR; folder])
      with (path.unsplit ("." :: ["data"] ++ [folder])).
    rewrite normalize_unsplit; [|done|done|by repeat constructor].
    cbv zeta.
    change ("." :: ["data"] ++ [folder])%list with (["."; "data"] ++ [folder])%list.
    rewrite fold_left_app.
    change (fold_left (path.norm_step true) ["."; "data"] []) with ["data"].
    cbn [fold_left]. rewrite norm_step_proper by done.
    rewrite bool_decide_eq_false_2 by done.
    apply resolve_proper; [done| |]; repeat first [done | constructor]. }
  rewrite join_nonempty; [|done|by repeat constructor].
  change (path.unsplit [DATA_DIR; folder; b])
    with (path.unsplit ("." :: ["data"; folder] ++ [b])).
  rewrite normalize_unsplit; [|done|done|by repeat constructor].
  cbv zeta.
  change ("." :: ["data"; folder] ++ [b])%list
    with (["."; "data"] ++ [folder] ++ [b])%list.
  rewrite !fold_left_app.
  change (fold_left (path.norm_step true) ["."; "data"] []) with ["data"].
  cbn [fold_left]. rewrite (norm_step_proper _ _ folder) by done.
  destruct (decide (b = ".")) as [->|Hdot].
  { rewrite decide_True by (by right).
    change (path.norm_step true (["data"] ++ [folder]) ".")
      with ["data"; folder].
    rewrite bool_decide_eq_false_2 by done.
    apply resolve_proper; [done| |]; repeat first [done | constructor]. }
  rewrite decide_False by (by intros [?|?]).
  destruct (decide (b = "..")) as [->|Hdots].
  { unfold path.norm_step. rewrite (bool_decide_eq_false_2 (".." = "" ∨ _)) by (by intros [?|?]).
    rewrite (bool_decide_eq_true_2 (".." = "..")) by done.
    rewrite last_snoc. rewrite (bool_decide_eq_false_2 (folder = "..")) by done.
    rewrite removelast_last. reflexivity. }
  rewrite norm_step_proper by done.
  rewrite bool_decide_eq_false_2 by done.
  change (path.unsplit ((["data"] ++ [folder]) ++ [b]))
    with (path.unsplit ["data"; folder; b]).
  rewrite resolve_proper; [|done| |]; repeat first [done | constructor].
  by rewrite <- app_assoc.
Qed.

Lemma node_at_snoc (w : world) (k : list string) (x : string) :
  fs.node_at w (k ++ [x]) = tree w !! (k ++ [x])%list.
Proof. unfold fs.node_at. by destruct k. Qed.

Lemma blob_key_proper (w : world) (folder filename : string) :
  folder ∈ ALLOWED_FOLDERS -> proper (path.basename filename) ->
  fs.resolve w (blob_path folder filename)
  = (bucket w folder ++ [path.basename filename])%list.
Proof.
  intros Hf (H1 & H2 & H3). rewrite blob_key by done. cbv zeta.
  rewrite decide_False by (by intros [?|?]). by rewrite decide_False.
Qed.


Lemma blob_path_string (folder filename : string) :
  folder ∈ ALLOWED_FOLDERS -> proper (path.basename filename) ->
  blob_path folder filename
  = "data/" ++ folder ++ "/" ++ path.basename filename.
Proof.
  intros [Hfs Hfp]%allowed_folder Hp. pose proof Hfp as (Hfne & Hfdot & Hfdots).
  pose proof Hp as (Hne & Hdot & Hdots).
  unfold blob_path. cbv zeta.
  pose proof (basename_no_sep filename) as Hb.
  set (b := path.basename filename) in *.
  rewrite join_nonempty; [|done|by repeat constructor].
  change (path.unsplit [DATA_DIR; folder; b])
    with (path.unsplit ("." :: ["data"; folder] ++ [b])).
  rewrite normalize_unsplit; [|done|done|by repeat constructor].
  cbv zeta.
  change ("." :: ["data"; folder] ++ [b])%list
    with (["."; "data"] ++ [folder] ++ [b])%list.
  rewrite !fold_left_app.
  change (fold_left (path.norm_step true) ["."; "data"] []) with ["data"].
  cbn [fold_left]. rewrite (norm_step_proper _ _ folder) by done.
  rewrite norm_step_proper by done.
  by rewrite bool_decide_eq_false_2.
Qed.

Lemma has_nul_blob_path (folder filename : string) :
  folder ∈ ALLOWED_FOLDERS -> proper (path.basename filename) ->
  fs.has_nul (blob_path folder filename) = fs.has_nul (path.basename filename).
Proof.
  intros Hf Hp. rewrite blob_path_string by done.
  rewrite !has_nul_append.
  assert (fs.has_nul folder = false) as ->.
  { unfold ALLOWED_FOLDERS in Hf.
    apply elem_of_cons in Hf as [->|Hf]; [done|].
    by apply list_elem_of_singleton in Hf as ->. }
  done.
Qed.

(** ** Further properties of the record store *)

(** X1: for an identifier without a path separator the record path is
    [data/questions/<id>.json], an entry directly inside the questions
    directory. *)
Theorem record_path_confined (w : world) (id : string) :
  no_sep id ->
  record_path id = "data/questions/" ++ id ++ ".json" ∧
  fs.resolve w (record_path id)
  = (fs.resolve w QUESTIONS_DIR ++ [id +:+ ".json"])%list.
Proof.
  intros Hid. split.
  - apply questions_child_path; [by apply no_sep_json|apply json_name_proper].
  - rewrite resolve_record_path by done. rewrite resolve_questions_dir.
    by rewrite <- app_assoc.
Qed.

Lemma record_path_confined_witness :
  record_path "q1" = "data/questions/" ++ "q1" ++ ".json" ∧
  fs.resolve demo (record_path "q1")
  = (fs.resolve demo QUESTIONS_DIR ++ ["q1" +:+ ".json"])%list.
Proof. apply (record_path_confined demo "q1"). reflexivity. Defined.

(** X2: a create under an identifier that is taken answers 409 and changes
    nothing.  Under a free identifier without a path separator that the
    volume takes as a name, with the questions directory in place, the
    volume afterwards is the old one with the stamped document, as
    serialised, under the record path, where nothing was before; any later
    create under that identifier answers 409 and leaves it as it is.
    Under a free identifier whose name is too long for the volume the
    create answers 500 and changes nothing. *)
Theorem create_unique (w : world) (body : json) (rnd now1 now2 : string)
    (id doc : json) (name : string) :
  stamp body rnd now1 now2 = Done (id, doc) ->
  toStr id = Done name ->
  (fs.existsSync w (record_path name) = true ->
     createQuestion body rnd now1 now2 w
     = (failure 409 "Question with this ID already exists", w)) ∧
  (no_sep name -> storable name -> questions_ready w ->
   fs.existsSync w (record_path name) = false ->
     ∃ w', (createQuestion body rnd now1 now2 w).2 = w' ∧
           w' = World (cwd w)
                  (<[fs.resolve w (record_path name) := File (JSON_stringify doc)]>
                     (tree w)) ∧
           tree w !! fs.resolve w (record_path name) = None ∧
           fs.readFileSync w' (record_path name) = Done (JSON_stringify doc) ∧
           ∀ body' rnd' t1 t2 id' doc',
             stamp body' rnd' t1 t2 = Done (id', doc') ->
             toStr id' = Done name ->
             createQuestion body' rnd' t1 t2 w'
             = (failure 409 "Question with this ID already exists", w')) ∧
  (no_sep name -> fs.has_nul name = false -> questions_ready w ->
   fs.existsSync w (record_path name) = false ->
   (fs.NAME_MAX < String.length name + String.length ".json")%nat ->
     createQuestion body rnd now1 now2 w
     = (failure 500 "Failed to create question", w)).
Proof.
  intros Hs Hn. split_and!.
  - intros He. by eapply create_conflict.
  - intros Hsep Hst Hready He.
    pose proof (write_record_plain w name (JSON_stringify doc) Hready Hsep Hst He)
      as Hw.
    rewrite <- resolve_record_path in Hw by done.
    eexists. split_and!.
    + rewrite (create_run _ _ _ _ _ _ _ _ Hs Hn), He, Hw. reflexivity.
    + done.
    + apply exists_false in He.
      * rewrite resolve_record_path in * by done.
        change (cwd w ++ ["data"; "questions"; name +:+ ".json"])%list
          with (cwd w ++ ["data"; "questions"] ++ [name +:+ ".json"])%list in *.
        rewrite app_assoc in *. by rewrite node_at_snoc in He.
      * rewrite has_nul_record_path by done. apply Hst.
    + by apply read_after_write in Hw as [_ ?].
    + intros body' rnd' t1 t2 id' doc' Hs' Hn'.
      eapply create_conflict; [done|done|].
      by apply read_after_write in Hw as [? _].
  - intros Hsep Hnul Hready He Hlen.
    rewrite (create_run _ _ _ _ _ _ _ _ Hs Hn), He.
    by rewrite (write_record_long w name _ Hready Hsep Hnul He Hlen).
Qed.

Lemma create_unique_witness :
  createQuestion sum_question "rnd" "t1" "t2" demo
  = (failure 409 "Question with this ID already exists", demo) ∧
  (∃ w', (createQuestion (JObj ∅) "0a1b" "t1" "t2" demo).2 = w' ∧
        w' = World (cwd demo)
               (<[fs.resolve demo (record_path "0a1b")
                  := File (JSON_stringify (JObj (stamped ∅ "0a1b" "t1" "t2")))]>
                  (tree demo)) ∧
        tree demo !! fs.resolve demo (record_path "0a1b") = None ∧
        fs.readFileSync w' (record_path "0a1b")
        = Done (JSON_stringify (JObj (stamped ∅ "0a1b" "t1" "t2"))) ∧
        ∀ body' rnd' t1 t2 id' doc',
          stamp body' rnd' t1 t2 = Done (id', doc') ->
          toStr id' = Done "0a1b" ->
          createQuestion body' rnd' t1 t2 w'
          = (failure 409 "Question with this ID already exists", w')) ∧
  createQuestion (JObj {[ "_id" := JStr long_name ]}) "rnd" "t1" "t2" demo
  = (failure 500 "Failed to create question", demo).
Proof.
  split_and!.
  - apply (create_unique demo sum_question "rnd" "t1" "t2" _ _ "q1"
             (stamp_object sum_fields "rnd" "t1" "t2"));
      vm_compute; reflexivity.
  - apply (create_unique demo (JObj ∅) "0a1b" "t1" "t2" _ _ "0a1b"
             (stamp_object ∅ "0a1b" "t1" "t2")).
    + vm_compute. reflexivity.
    + reflexivity.
    + split; [reflexivity|]. vm_compute. lia.
    + vm_compute. reflexivity.
    + vm_compute. reflexivity.
  - apply (create_unique demo (JObj {[ "_id" := JStr long_name ]})
             "rnd" "t1" "t2" _ _ long_name
             (stamp_object {[ "_id" := JStr long_name ]} "rnd" "t1" "t2")).
    + vm_compute. reflexivity.
    + vm_compute. reflexivity.
    + vm_compute. reflexivity.
    + vm_compute. reflexivity.
    + vm_compute. reflexivity.
    + vm_compute. lia.
Defined.

(** X3: update of a stored object: the patch is merged over the stored
    properties, [_id] is the identifier of the request, [createdAt] is the
    stored one, [updatedAt] the clock reading; every other property comes
    from the patch when the patch has it and from the stored document
    otherwise.  The values are stored as serialised: as they are, except
    that a number that is not finite becomes [null]. *)
Theorem update_merges (w : world) (id : string) (body : json) (now : string)
    (E : gmap string json) :
  fs.readFileSync w (record_path id) = Done (Doc (JObj E)) ->
  ∃ U : gmap string json,
    (updateQuestion id body now w).2
    = World (cwd w)
        (<[fs.resolve w (record_path id) := File (Doc (JObj U))]> (tree w)) ∧
    fs.readFileSync (updateQuestion id body now w).2 (record_path id)
    = Done (Doc (JObj U)) ∧
    U !! "_id" = Some (JStr id) ∧
    U !! "createdAt" = serialised <$> E !! "createdAt" ∧
    U !! "updatedAt" = Some (JStr now) ∧
    (∀ k, k ∉ reserved ->
       U !! k = serialised <$> match own_props body !! k with
                               | Some v => Some v
                               | None => E !! k
                               end) ∧
    (∀ k v, k ∉ reserved ->
       match own_props body !! k with
       | Some x => Some x
       | None => E !! k
       end = Some v ->
       finite v -> U !! k = Some v) ∧
    (E !! "_id" = Some (JStr id) -> U !! "_id" = E !! "_id").
Proof.
  intros Hr.
  destruct (merge_fields E body id now) as (M & HM & Hid & Hc & Hu & Hrest).
  pose proof (update_stores w id body (JObj E) now (E !! "createdAt") Hr eq_refl)
    as Hw.
  rewrite HM in Hw. exists (serialised <$> M). split_and!.
  - exact Hw.
  - rewrite Hw. apply read_inv in Hr as [Hv Hnode].
    unfold fs.readFileSync. rewrite Hv.
    rewrite (resolve_same_cwd w (World (cwd w) _)) by done.
    assert (fs.resolve w (record_path id) ≠ []) as Hk.
    { intros Heq. rewrite Heq in Hnode. done. }
    rewrite node_at_insert by done. by rewrite decide_True.
  - by rewrite lookup_fmap, Hid.
  - by rewrite lookup_fmap, Hc.
  - by rewrite lookup_fmap, Hu.
  - intros k Hk. by rewrite lookup_fmap, Hrest.
  - intros k v Hk Hv Hfin. rewrite lookup_fmap, Hrest by done.
    rewrite Hv. simpl. by rewrite Hfin.
  - intros HE. by rewrite lookup_fmap, Hid.
Qed.

Lemma update_merges_witness :
  ∃ U : gmap string json,
    (updateQuestion "q1" (JObj {[ "title" := JStr "3Sum" ]}) "t3" demo).2
    = World (cwd demo)
        (<[fs.resolve demo (record_path "q1") := File (Doc (JObj U))]> (tree demo)) ∧
    fs.readFileSync
      (updateQuestion "q1" (JObj {[ "title" := JStr "3Sum" ]}) "t3" demo).2
      (record_path "q1")
    = Done (Doc (JObj U)) ∧
    U !! "_id" = Some (JStr "q1") ∧
    U !! "createdAt" = serialised <$> sum_fields !! "createdAt" ∧
    U !! "updatedAt" = Some (JStr "t3") ∧
    (∀ k, k ∉ reserved ->
       U !! k = serialised <$>
                match own_props (JObj {[ "title" := JStr "3Sum" ]}) !! k with
                | Some v => Some v
                | None => sum_fields !! k
                end) ∧
    (∀ k v, k ∉ reserved ->
       match own_props (JObj {[ "title" := JStr "3Sum" ]}) !! k with
       | Some x => Some x
       | None => sum_fields !! k
       end = Some v ->
       finite v -> U !! k = Some v) ∧
    (sum_fields !! "_id" = Some (JStr "q1") -> U !! "_id" = sum_fields !! "_id").
Proof.
  apply (update_merges demo "q1" (JObj {[ "title" := JStr "3Sum" ]}) "t3" sum_fields).
  vm_compute. reflexivity.
Defined.

(** X4: after a delete that answers 200, a get of the same identifier
    answers 404. *)
Theorem delete_then_get (w w' : world) (id : string) (b : json) :
  deleteQuestion id w = (Reply 200 b, w') ->
  getQuestion w' id = failure 404 "Question not found".
Proof.
  unfold deleteQuestion. run. unfold failure.
  destruct (fs.existsSync w (record_path id)); simpl; [|congruence].
  destruct (fs.readFileSync w (record_path id)) as [text|]; [|congruence].
  destruct (JSON_parse text) as [data|]; [|congruence].
  unfold fs.unlinkSync.
  destruct (fs.has_nul (record_path id)) eqn:Hv; [congruence|].
  destruct (fs.node_at w (fs.resolve w (record_path id))) as [[c|]|] eqn:Hn;
    [|congruence|congruence].
  destruct (get_prop data "title") as [title|]; [|congruence].
  destruct (toStr_opt title); [|congruence].
  intros [= _ <-]. unfold getQuestion, try_catch_ro, fs.existsSync. rewrite Hv.
  rewrite (resolve_same_cwd w (World (cwd w) _)) by done.
  assert (fs.resolve w (record_path id) ≠ []) as Hk.
  { intros Heq. rewrite Heq in Hn. done. }
  rewrite node_at_delete by done. by rewrite decide_True.
Qed.

Lemma delete_then_get_witness :
  getQuestion (deleteQuestion "q1" demo).2 "q1" = failure 404 "Question not found".
Proof.
  apply (delete_then_get demo _ "q1" (body_of (deleteQuestion "q1" demo).1)).
  vm_compute. reflexivity.
Defined.

(** X5: lookup by slug returns the first scanned record whose slug equals
    the requested one, and answers 404 when every record is read and none
    matches. *)
Theorem slug_lookup (w : world) (slug : string) (files : list string) :
  record_files w = Done files ->
  (Forall (fun f => ∃ data s, read_record w f = Done data ∧
                             get_prop data "slug" = Done s ∧
                             s ≠ Some (JStr slug)) files ->
     getQuestionBySlug w slug = failure 404 "Question not found") ∧
  (∀ pre f post data,
     files = (pre ++ f :: post)%list ->
     Forall (fun f => ∃ data s, read_record w f = Done data ∧
                               get_prop data "slug" = Done s ∧
                               s ≠ Some (JStr slug)) pre ->
     read_record w f = Done data ->
     get_prop data "slug" = Done (Some (JStr slug)) ->
     getQuestionBySlug w slug = found data).
Proof.
  intros Hf.
  assert (∀ pre rest,
            Forall (fun f => ∃ data s, read_record w f = Done data ∧
                                      get_prop data "slug" = Done s ∧
                                      s ≠ Some (JStr slug)) pre ->
            slug_scan w slug (pre ++ rest) = slug_scan w slug rest) as Hskip.
  { intros pre rest Hpre. induction Hpre as [|f pre (data & s & Hd & Hs & Hne) _ IH];
      [done|]. simpl. unfold obind. rewrite Hd, Hs.
    destruct s as [[| | |s'| |]|]; try done.
    case_bool_decide; [by subst|done]. }
  split.
  - intros Hall. unfold getQuestionBySlug, try_catch_ro, obind. rewrite Hf.
    rewrite <- (app_nil_r files). by rewrite Hskip.
  - intros pre f post data -> Hpre Hd Hs.
    unfold getQuestionBySlug, try_catch_ro, obind. rewrite Hf.
    rewrite Hskip by done. simpl. unfold obind. rewrite Hd, Hs.
    by rewrite bool_decide_eq_true_2.
Qed.

Lemma slug_lookup_witness :
  getQuestionBySlug demo "two-sum" = found sum_question ∧
  getQuestionBySlug demo "three-sum" = failure 404 "Question not found".
Proof.
  assert (record_files demo = Done ["q1.json"]) as Hf by (vm_compute; reflexivity).
  destruct (slug_lookup demo "two-sum" ["q1.json"] Hf) as [_ Hhit].
  destruct (slug_lookup demo "three-sum" ["q1.json"] Hf) as [Hmiss _].
  split.
  - apply (Hhit [] "q1.json" [] sum_question); [done|constructor|..];
      vm_compute; reflexivity.
  - apply Hmiss. repeat constructor.
    exists sum_question, (Some (JStr "two-sum")).
    split_and!; [vm_compute; reflexivity..|discriminate].
Defined.
(** ** The start-up code *)

Lemma mkdirs_spec (rest : list string) : ∀ t done t',
  mkdirs t done rest = Some t' ->
  t ⊆ t' ∧
  (∀ k n, t' !! k = Some n -> t !! k = Some n ∨ n = Dir) ∧
  (rest ≠ [] -> t' !! (done ++ rest)%list = Some Dir).
Proof.
  induction rest as [|seg rest IH]; intros t done t'; simpl.
  - intros [= <-]. split_and!; [done|by left|done].
  - destruct (t !! (done ++ [seg])%list) as [[c|]|] eqn:E; [done| |].
    + intros (Hsub & Hnew & Hlast)%IH. split_and!; [done|done|].
      intros _. destruct rest as [|seg' rest'].
      * simpl in Hsub. eapply lookup_weaken; [|exact Hsub]. done.
      * rewrite <- app_assoc in Hlast. by apply Hlast.
    + case_decide; [|done].
      intros (Hsub & Hnew & Hlast)%IH. split_and!.
      * etrans; [|exact Hsub]. by apply insert_subseteq.
      * intros k n Hk. destruct (Hnew k n Hk) as [Hold| ->]; [|by right].
        rewrite lookup_insert in Hold. case_decide; [|by left].
        right. congruence.
      * intros _. destruct rest as [|seg' rest'].
        -- eapply lookup_weaken; [|exact Hsub]. apply lookup_insert_eq.
        -- rewrite <- app_assoc in Hlast. by apply Hlast.
Qed.

Lemma extends_refl w : extends_with_dirs w w.
Proof. split; [apply grows_refl|]. intros k n. by left. Qed.

Lemma extends_trans w1 w2 w3 :
  extends_with_dirs w1 w2 -> extends_with_dirs w2 w3 -> extends_with_dirs w1 w3.
Proof.
  intros [Hg1 Hn1] [Hg2 Hn2]. split; [by eapply grows_trans|].
  intros k n Hk. destruct (Hn2 k n Hk) as [H| ->]; [|by right]. by apply Hn1.
Qed.

Lemma ensure_dir_spec (w w' : world) (p : string) :
  ensure_dir w p = Some w' ->
  fs.resolve w p ≠ [] ->
  extends_with_dirs w w' ∧
  (dir_or_absent w (fs.resolve w p) -> fs.node_at w' (fs.resolve w p) = Some Dir).
Proof.
  unfold ensure_dir, fs.existsSync, mkdirSync. intros H Hk.
  destruct (fs.has_nul p); [done|].
  destruct (fs.node_at w (fs.resolve w p)) as [n|] eqn:E.
  - injection H as <-. split; [apply extends_refl|].
    intros Hd. destruct n as [c|]; [by destruct (Hd c)|done].
  - destruct (mkdirs (tree w) [] (fs.resolve w p)) as [t'|] eqn:Em; [|done].
    injection H as <-. apply mkdirs_spec in Em as (Hsub & Hnew & Hlast).
    split; [by repeat split|]. intros _.
    specialize (Hlast Hk). simpl in Hlast.
    unfold fs.node_at. by destruct (fs.resolve w p).
Qed.

Lemma extends_keeps_dir (w w' : world) (k : list string) :
  extends_with_dirs w w' -> dir_or_absent w k -> dir_or_absent w' k.
Proof.
  intros [[_ Hsub] Hnew] Hd c Hc. destruct k as [|x k]; [done|]. simpl in *.
  destruct (Hnew _ _ Hc) as [Hold|?]; [|done]. by apply (Hd c).
Qed.

Lemma resolve_data_dir (w : world) :
  fs.resolve w DATA_DIR = (cwd w ++ ["data"])%list.
Proof.
  change DATA_DIR with (path.unsplit ["."; "data"]).
  rewrite resolve_unsplit; [|done|repeat constructor; done].
  reflexivity.
Qed.

Lemma resolve_bucket (w : world) (folder : string) :
  folder ∈ ALLOWED_FOLDERS ->
  fs.resolve w (path.join [DATA_DIR; folder]) = bucket w folder.
Proof.
  intros Hf. pose proof (blob_key w folder "" Hf) as H. cbv zeta in H.
  rewrite decide_True in H by (by left). rewrite <- H.
  reflexivity.
Qed.

Lemma ensure_all_None (ps : list string) :
  fold_left (fun ow p => w' ← ow; ensure_dir w' p) ps None = None.
Proof. by induction ps. Qed.

Lemma ensure_all_spec (ps : list string) : ∀ w w',
  ensure_all ps w = Some w' ->
  Forall (fun p => fs.resolve w p ≠ []) ps ->
  Forall (fun p => dir_or_absent w (fs.resolve w p)) ps ->
  extends_with_dirs w w' ∧
  Forall (fun p => fs.node_at w' (fs.resolve w' p) = Some Dir) ps.
Proof.
  unfold ensure_all.
  induction ps as [|p ps IH]; intros w w' H Hne Hfree; simpl in H.
  - injection H as <-. split; [apply extends_refl|constructor].
  - destruct (ensure_dir w p) as [w1|] eqn:E1; simpl in H;
      [|by rewrite ensure_all_None in H].
    inversion Hne as [|?? Hp Hne']; subst. inversion Hfree as [|?? Hfp Hfree']; subst.
    destruct (ensure_dir_spec w w1 p E1 Hp) as [Hext Hdir].
    assert (cwd w1 = cwd w) as Hcwd by apply Hext.
    destruct (IH w1 w' H) as [Hext' Hall].
    + eapply Forall_impl; [exact Hne'|]. intros q Hq. simpl in Hq.
      by rewrite (resolve_same_cwd w w1).
    + rewrite Forall_forall in Hfree'. apply Forall_forall. intros q Hq.
      rewrite (resolve_same_cwd w w1) by done.
      eapply extends_keeps_dir; [exact Hext|]. by apply Hfree'.
    + split; [by eapply extends_trans|]. constructor; [|done].
      assert (cwd w' = cwd w1) as Hcwd' by apply Hext'.
      rewrite (resolve_same_cwd w1 w') by done.
      rewrite (resolve_same_cwd w w1) by done.
      eapply grows_node; [apply Hext'|]. by apply Hdir.
Qed.

Lemma ensure_all_ready (ps : list string) (w : world) :
  Forall (fun p => fs.existsSync w p = true) ps -> ensure_all ps w = Some w.
Proof.
  unfold ensure_all. induction 1 as [|p ps Hp _ IH]; [done|]. simpl.
  unfold ensure_dir. by rewrite Hp.
Qed.

Lemma startup_ensure_all (w : world) : startup w = ensure_all start_paths w.
Proof.
  unfold startup, ensure_all, start_paths. simpl.
  destruct (ensure_dir w DATA_DIR) as [w1|]; simpl; [|done].
  by destruct (ensure_dir w1 QUESTIONS_DIR) as [w2|].
Qed.

(** X6: when the start-up code runs through and none of the four paths it
    visits ([data], [data/questions], [data/profileimages], [data/resumes])
    is a regular file, the data directory, the questions directory and the
    directory of every allowed folder exist afterwards; every entry of the
    volume is kept as it was, every new entry is a directory, and running
    the start-up code again changes nothing. *)
Theorem startup_creates_layout (w w' : world) :
  startup w = Some w' ->
  Forall (fun p => dir_or_absent w (fs.resolve w p)) start_paths ->
  layout w' ∧ questions_ready w' ∧ extends_with_dirs w w' ∧
  startup w' = Some w'.
Proof.
  rewrite !startup_ensure_all. intros H Hfree.
  destruct (ensure_all_spec start_paths w w' H) as [Hext Hall]; [|done|].
  { unfold start_paths. simpl. repeat constructor.
    - rewrite resolve_data_dir. by destruct (cwd w).
    - rewrite resolve_questions_dir. by destruct (cwd w).
    - rewrite resolve_bucket by (vm_compute; set_solver). unfold bucket.
      by destruct (cwd w).
    - rewrite resolve_bucket by (vm_compute; set_solver). unfold bucket.
      by destruct (cwd w). }
  unfold start_paths in Hall. simpl in Hall.
  inversion Hall as [|?? Hdata Hall1]; subst.
  inversion Hall1 as [|?? Hq Hall2]; subst.
  inversion Hall2 as [|?? Hb1 Hall3]; subst.
  inversion Hall3 as [|?? Hb2 _]; subst.
  split_and!.
  - split; [by rewrite <- resolve_data_dir|].
    intros folder Hin. unfold ALLOWED_FOLDERS in Hin.
    apply elem_of_cons in Hin as [->|Hin].
    + by rewrite <- resolve_bucket by (vm_compute; set_solver).
    + apply list_elem_of_singleton in Hin as ->.
      by rewrite <- resolve_bucket by (vm_compute; set_solver).
  - exact Hq.
  - exact Hext.
  - apply ensure_all_ready. unfold start_paths. simpl.
    repeat constructor; apply exists_true;
      (split; [vm_compute; reflexivity|by eexists]).
Qed.

Lemma startup_creates_layout_witness :
  let w := World ["srv"] {[ ["srv"] := Dir ]} in
  ∃ w', startup w = Some w' ∧
        layout w' ∧ questions_ready w' ∧ extends_with_dirs w w' ∧
        startup w' = Some w'.
Proof.
  cbv zeta. eexists. split; [vm_compute; reflexivity|].
  apply (startup_creates_layout (World ["srv"] {[ ["srv"] := Dir ]})).
  - vm_compute. reflexivity.
  - repeat constructor; intros c; vm_compute; discriminate.
Defined.
(** ** The key check *)

(** X7: a guarded route runs its handler exactly when the request carries
    the configured key, in the [x-api-key] header or, when the header is
    absent or empty, in the [apiKey] query parameter; a header with another
    non-empty value is not overridden by the query parameter.  Every other
    request is answered 401 and the volume is left as it is. *)
Theorem key_check_gates_writes (header query : option string)
    (next : world -> response * world) (w : world) :
  (carries_key header query -> requireApiKey header query next w = next w) ∧
  (¬ carries_key header query ->
     requireApiKey header query next w
     = (failure 401 "Invalid or missing API key", w)).
Proof.
  unfold requireApiKey, carries_key. split.
  - intros [->|[[->| ->] ->]]; by rewrite ?bool_decide_eq_true_2.
  - intros Hno. rewrite bool_decide_eq_false_2; [done|]. intros Hkey.
    apply Hno. destruct header as [h|]; [|by right; split; [left|]].
    case_bool_decide as Hh; [subst; by right; split; [right|]|].
    by left.
Qed.

Lemma key_check_gates_writes_witness :
  DELETE_question (Some "") (Some API_KEY) "q1" demo = deleteQuestion "q1" demo ∧
  DELETE_question (Some "guess") (Some API_KEY) "q1" demo
  = (failure 401 "Invalid or missing API key", demo).
Proof.
  split.
  - apply (key_check_gates_writes (Some "") (Some API_KEY) (deleteQuestion "q1") demo).
    right. split; [by right|done].
  - apply (key_check_gates_writes (Some "guess") (Some API_KEY)
             (deleteQuestion "q1") demo).
    intros [H|[[H|H] _]]; discriminate.
Defined.
(** ** The test-case projection *)

(** X8: for a stored object the test-case route answers 200 with at most the
    three properties [testCases], [timeLimit] and [memoryLimit]:
    [testCases] is the stored value when that is truthy and the empty array
    otherwise, the two limits are the stored values and are absent when the
    record has none. *)
Theorem test_cases_projection (w : world) (id : string) (E : gmap string json) :
  fs.readFileSync w (record_path id) = Done (Doc (JObj E)) ->
  ∃ D : gmap string json,
    getTestCases w id = found (JObj D) ∧
    dom D ⊆ limits ∧
    D !! "testCases" = Some (or_else (E !! "testCases") (JArr [])) ∧
    D !! "timeLimit" = E !! "timeLimit" ∧
    D !! "memoryLimit" = E !! "memoryLimit".
Proof.
  intros Hr. unfold getTestCases, try_catch_ro, obind.
  rewrite (read_exists _ _ _ Hr).
  cbn [negb]. rewrite Hr. cbn [JSON_parse get_prop]. unfold found at 1, object at 2.
  cbn [fold_left fst snd]. eexists. split; [reflexivity|]. split_and!.
  - intros k [v Hk]%elem_of_dom. rewrite !put_lookup in Hk. unfold limits.
    repeat (destruct (decide (_ = k)) as [<-|?]; [set_solver|]).
    by rewrite lookup_empty in Hk.
  - by rewrite !put_lookup.
  - by rewrite !put_lookup.
  - by rewrite !put_lookup.
Qed.

Lemma test_cases_projection_witness :
  ∃ D : gmap string json,
    getTestCases demo "q1" = found (JObj D) ∧
    dom D ⊆ limits ∧
    D !! "testCases" = Some (or_else (sum_fields !! "testCases") (JArr [])) ∧
    D !! "timeLimit" = sum_fields !! "timeLimit" ∧
    D !! "memoryLimit" = sum_fields !! "memoryLimit".
Proof. apply (test_cases_projection demo "q1" sum_fields). reflexivity. Defined.
(** ** What the question routes leave alone *)

Lemma unlink_inv (w w' : world) (p : string) :
  fs.unlinkSync w p = Done w' ->
  fs.resolve w p ≠ [] ∧ w' = World (cwd w) (delete (fs.resolve w p) (tree w)).
Proof.
  unfold fs.unlinkSync. destruct (fs.has_nul p); [done|].
  destruct (fs.node_at w (fs.resolve w p)) as [[c|]|] eqn:E; [|done|done].
  intros [= <-]. split; [|done]. intros Heq. by rewrite Heq in E.
Qed.

(** X9: a create only adds to the volume; an update and a delete keep the
    working directory and change no entry other than the one the record
    path of their identifier resolves to, and they answer 404 without a
    change when nothing exists at that path. *)
Theorem question_writes_are_local :
  (∀ body rnd now1 now2 w, grows w (createQuestion body rnd now1 now2 w).2) ∧
  (∀ id body now w,
     cwd (updateQuestion id body now w).2 = cwd w ∧
     (∀ k, k ≠ fs.resolve w (record_path id) ->
           tree (updateQuestion id body now w).2 !! k = tree w !! k) ∧
     (fs.existsSync w (record_path id) = false ->
        updateQuestion id body now w = (failure 404 "Question not found", w))) ∧
  (∀ id w,
     cwd (deleteQuestion id w).2 = cwd w ∧
     (∀ k, k ≠ fs.resolve w (record_path id) ->
           tree (deleteQuestion id w).2 !! k = tree w !! k) ∧
     (fs.existsSync w (record_path id) = false ->
        deleteQuestion id w = (failure 404 "Question not found", w))).
Proof.
  split_and!.
  - intros body rnd now1 now2 w. unfold createQuestion. run.
    destruct (stamp body rnd now1 now2) as [[id doc]|]; [|apply grows_refl].
    cbn [fst snd]. destruct (toStr id) as [name|]; [|apply grows_refl].
    destruct (fs.existsSync w (record_path name)) eqn:He; [apply grows_refl|].
    destruct (fs.writeFileSync w (record_path name) _) as [w1|] eqn:Hw;
      [|apply grows_refl].
    apply (write_grows _ _ _ _ He) in Hw.
    destruct (get_prop doc "title") as [t|]; [|done].
    by destruct (toStr_opt t).
  - intros id body now w. unfold updateQuestion. run.
    destruct (fs.existsSync w (record_path id)) eqn:He; simpl; [|done].
    destruct (fs.readFileSync w (record_path id)) as [text|]; [|done].
    destruct (JSON_parse text) as [data|]; [|done].
    destruct (get_prop data "createdAt") as [c|]; [|done].
    destruct (fs.writeFileSync w (record_path id) _) as [w1|] eqn:Hw; [|done].
    apply write_inv in Hw as [Hk ->].
    assert (∀ r : response * world, r.2 = World (cwd w) (<[fs.resolve w (record_path id) := File (JSON_stringify (merge data body id c now))]> (tree w)) ->
            cwd r.2 = cwd w ∧
            (∀ k, k ≠ fs.resolve w (record_path id) -> tree r.2 !! k = tree w !! k) ∧
            (true = false -> r = (failure 404 "Question not found", w))) as Hgen.
    { intros r ->. split_and!; [done| |done]. intros k Hne. simpl.
      by rewrite lookup_insert_ne. }
    apply Hgen. by destruct (toStr_opt _).
  - intros id w. unfold deleteQuestion. run.
    destruct (fs.existsSync w (record_path id)) eqn:He; simpl; [|done].
    destruct (fs.readFileSync w (record_path id)) as [text|]; [|done].
    destruct (JSON_parse text) as [data|]; [|done].
    destruct (fs.unlinkSync w (record_path id)) as [w1|] eqn:Hu; [|done].
    apply unlink_inv in Hu as [Hk ->].
    assert (∀ r : response * world,
              r.2 = World (cwd w) (delete (fs.resolve w (record_path id)) (tree w)) ->
              cwd r.2 = cwd w ∧
              (∀ k, k ≠ fs.resolve w (record_path id) -> tree r.2 !! k = tree w !! k) ∧
              (true = false -> r = (failure 404 "Question not found", w))) as Hgen.
    { intros r ->. split_and!; [done| |done]. intros k Hne. simpl.
      by rewrite lookup_delete_ne. }
    apply Hgen. destruct (get_prop data "title") as [t|]; [|done].
    by destruct (toStr_opt t).
Qed.
(** ** A damaged record *)

(** X10: a record file whose text is not JSON cannot be read, updated or
    removed through the API: get, test cases, update and delete of its
    identifier answer 500 and leave the volume as it is, and a create under
    that identifier answers 409. *)
Theorem damaged_record_is_stuck (w : world) (id raw : string) :
  fs.readFileSync w (record_path id) = Done (Bytes raw) ->
  getQuestion w id = failure 500 "Failed to get question" ∧
  getTestCases w id = failure 500 "Failed to get test cases" ∧
  (∀ body now,
     updateQuestion id body now w = (failure 500 "Failed to update question", w)) ∧
  deleteQuestion id w = (failure 500 "Failed to delete question", w) ∧
  (∀ body rnd now1 now2 id' doc,
     stamp body rnd now1 now2 = Done (id', doc) -> toStr id' = Done id ->
     createQuestion body rnd now1 now2 w
     = (failure 409 "Question with this ID already exists", w)).
Proof.
  intros Hr.
  pose proof (read_exists _ _ _ Hr) as He.
  split_and!.
  - unfold getQuestion. run. rewrite He. simpl. by rewrite Hr.
  - unfold getTestCases. run. rewrite He. simpl. by rewrite Hr.
  - intros body now. unfold updateQuestion. run. rewrite He. simpl. by rewrite Hr.
  - unfold deleteQuestion. run. rewrite He. simpl. by rewrite Hr.
  - intros body rnd now1 now2 id' doc Hs Hn. by eapply create_conflict.
Qed.

Lemma damaged_record_is_stuck_witness :
  getQuestion damaged "zz" = failure 500 "Failed to get question" ∧
  deleteQuestion "zz" damaged = (failure 500 "Failed to delete question", damaged).
Proof.
  destruct (damaged_record_is_stuck damaged "zz" "{ oops") as (Hg & _ & _ & Hd & _).
  - vm_compute. reflexivity.
  - by split.
Defined.
(** ** Update, then get *)

(** X11: after an update that answers 200, the answer carries the merged
    document and a get of the same identifier returns that document as
    serialised: the client reads the same document from both answers. *)
Theorem update_then_get (w w' : world) (id : string) (body : json) (now : string)
    (b : json) :
  updateQuestion id body now w = (Reply 200 b, w') ->
  ∃ updatedData,
    Reply 200 b = acknowledged 200 "Question updated" (Some updatedData) ∧
    getQuestion w' id = found (serialised updatedData) ∧
    sent (Reply 200 b)
    = acknowledged 200 "Question updated" (Some (serialised updatedData)) ∧
    sent (getQuestion w' id) = found (serialised updatedData).
Proof.
  unfold updateQuestion. run. unfold failure.
  destruct (fs.existsSync w (record_path id)); simpl; [|congruence].
  destruct (fs.readFileSync w (record_path id)) as [text|]; [|congruence].
  destruct (JSON_parse text) as [data|]; [|congruence].
  destruct (get_prop data "createdAt") as [c|]; [|congruence].
  destruct (fs.writeFileSync w (record_path id) _) as [w1|] eqn:Hw; [|congruence].
  destruct (toStr_opt _); [|congruence].
  intros [= <- <-]. exists (merge data body id c now).
  assert (getQuestion w1 id = found (serialised (merge data body id c now)))
    as Hget by (by eapply get_after_write).
  split_and!.
  - reflexivity.
  - exact Hget.
  - apply (sent_acknowledged 200).
  - rewrite Hget, sent_found. by rewrite serialised_idemp.
Qed.

Lemma update_then_get_witness :
  ∃ updatedData,
    Reply 200 (body_of (updateQuestion "q1" (JObj {[ "title" := JStr "3Sum" ]})
                          "t3" demo).1)
    = acknowledged 200 "Question updated" (Some updatedData) ∧
    getQuestion (updateQuestion "q1" (JObj {[ "title" := JStr "3Sum" ]}) "t3" demo).2
                "q1"
    = found (serialised updatedData) ∧
    sent (Reply 200 (body_of (updateQuestion "q1" (JObj {[ "title" := JStr "3Sum" ]})
                                "t3" demo).1))
    = acknowledged 200 "Question updated" (Some (serialised updatedData)) ∧
    sent (getQuestion
            (updateQuestion "q1" (JObj {[ "title" := JStr "3Sum" ]}) "t3" demo).2
            "q1")
    = found (serialised updatedData).
Proof.
  apply (update_then_get demo _ "q1" (JObj {[ "title" := JStr "3Sum" ]}) "t3" _).
  vm_compute. reflexivity.
Defined.
(** ** Blobs: delete, then serve *)

(** X12: after a file delete that answers 200, serving the same folder and
    name answers 404, and no other entry of the volume has changed. *)
Theorem delete_file_then_serve (w w' : world) (folder filename : string) (b : json) :
  deleteFile folder filename w = (Reply 200 b, w') ->
  serveFile w' folder filename = failure 404 "File not found" ∧
  ∀ k, k ≠ fs.resolve w (blob_path folder filename) -> tree w' !! k = tree w !! k.
Proof.
  unfold deleteFile, serveFile, failure.
  destruct (bool_decide (folder ∈ ALLOWED_FOLDERS)); simpl; [|congruence].
  destruct (fs.existsSync w (blob_path folder filename)); simpl; [|congruence].
  destruct (fs.unlinkSync w (blob_path folder filename)) as [w1|] eqn:Hu;
    [|congruence].
  intros [= _ <-]. apply unlink_inv in Hu as [Hk ->]. split.
  - unfold fs.existsSync. destruct (fs.has_nul _); [done|].
    rewrite (resolve_same_cwd w (World (cwd w) _)) by done.
    rewrite node_at_delete by done. by rewrite decide_True.
  - intros k Hne. simpl. by rewrite lookup_delete_ne.
Qed.

Lemma delete_file_then_serve_witness :
  serveFile (deleteFile "resumes" "cv.pdf" demo).2 "resumes" "cv.pdf"
  = failure 404 "File not found" ∧
  ∀ k, k ≠ fs.resolve demo (blob_path "resumes" "cv.pdf") ->
       tree (deleteFile "resumes" "cv.pdf" demo).2 !! k = tree demo !! k.
Proof.
  apply (delete_file_then_serve demo _ "resumes" "cv.pdf"
           (body_of (deleteFile "resumes" "cv.pdf" demo).1)).
  vm_compute. reflexivity.
Defined.
(** ** Bulk import: the counts *)

Lemma bulk_loop_counts (now : nat -> string) (qs : list json) : ∀ i c s w c' s' w',
  bulk_loop now i qs c s w = (Done (c', s'), w') ->
  c' + s' = c + s + length qs.
Proof.
  induction qs as [|q qs IH]; intros i c s w c' s' w'; simpl.
  - intros [= <- <- <-]. lia.
  - run. destruct (get_prop q "_id") as [id|]; [|done].
    destruct (truthy id); simpl; [|intros H%IH; lia].
    destruct (toStr_opt id) as [name|]; [|done].
    destruct (fs.existsSync w (record_path name)); [intros H%IH; lia|].
    destruct (fs.writeFileSync w (record_path name) _) as [w1|]; [|done].
    intros H%IH. lia.
Qed.

(** X13: a bulk import never removes or replaces an entry of the volume;
    for an array of records it either answers 500 or reports counts of
    created and skipped records that add up to the length of the array;
    for a body whose [questions] is anything but an array it answers 400
    and changes nothing. *)
Theorem bulk_import_accounts_for_every_record (body : json) (now : nat -> string)
    (w : world) :
  grows w (bulkImport body now w).2 ∧
  (∀ qs, get_prop body "questions" = Done (Some (JArr qs)) ->
     (bulkImport body now w).1 = failure 500 "Bulk import failed" ∨
     ∃ c s, (bulkImport body now w).1 = imported c s ∧ c + s = length qs) ∧
  (∀ v, get_prop body "questions" = Done v ->
     (∀ qs, v ≠ Some (JArr qs)) ->
     bulkImport body now w = (failure 400 "questions must be an array", w)).
Proof.
  split_and!.
  - unfold bulkImport. run.
    destruct (get_prop body "questions") as [[v|]|]; try apply grows_refl.
    destruct v; try apply grows_refl.
    destruct (bulk_loop now 0 items 0 0 w) as [[[c s]|] w'] eqn:Hl;
      by apply bulk_loop_grows in Hl.
  - intros qs Hq. rewrite (bulkImport_run _ _ _ _ Hq).
    destruct (bulk_loop now 0 qs 0 0 w) as [[[c s]|] w'] eqn:Hl; [|by left].
    right. exists c, s. split; [done|].
    apply bulk_loop_counts in Hl. simpl in *. lia.
  - intros v Hv Hna. unfold bulkImport. run. rewrite Hv.
    destruct v as [[| | | |qs|]|]; try done. by destruct (Hna qs).
Qed.
(** ** The count of the health check *)

Lemma health_run (w : world) (timestamp uptime : string) (files : list string) :
  record_files w = Done files ->
  health w timestamp uptime = healthy timestamp (length files) uptime.
Proof.
  unfold record_files, health, obind.
  destruct (fs.readdirSync w QUESTIONS_DIR) as [names|]; [|done].
  by intros [= <-].
Qed.

Lemma listed_inj (es es' : list json) : listed es = listed es' -> es = es'.
Proof.
  intros H.
  apply (f_equal (fun r => match r with
                           | Reply _ (JObj m) => m !! "data"
                           | _ => None
                           end)) in H.
  unfold listed, object in H. simpl in H.
  rewrite !lookup_insert_eq in H. congruence.
Qed.

(** X14: the health check answers 200 with the number of [.json] entries of
    the questions directory, whether or not those records can be parsed;
    when the listing succeeds, its number of entries is that count.  When
    the questions directory cannot be read the exception leaves the
    handler. *)
Theorem health_counts_record_files (w : world) (timestamp uptime : string) :
  (∀ files, record_files w = Done files ->
     health w timestamp uptime = healthy timestamp (length files) uptime) ∧
  (∀ entries, listQuestions w = listed entries ->
     health w timestamp uptime = healthy timestamp (length entries) uptime) ∧
  (∀ e, record_files w = Thrown e -> health w timestamp uptime = Unhandled e).
Proof.
  split_and!.
  - intros files. apply health_run.
  - intros entries. unfold listQuestions, try_catch_ro.
    destruct (record_files w) as [files|] eqn:Hf; [|done].
    cbn [obind].
    destruct (mapM _ files) as [es|] eqn:Hm; [|done]. cbn [obind].
    intros ->%listed_inj. apply mapM_Forall2, Forall2_length in Hm.
    rewrite <- Hm. by apply health_run.
  - intros e. unfold record_files, health, obind.
    destruct (fs.readdirSync w QUESTIONS_DIR) as [names|]; [done|].
    by intros [= ->].
Qed.
(** ** Create and the number of record files *)

Lemma substring_all (s : string) : String.substring 0 (String.length s) s = s.
Proof. induction s as [|c s IH]; simpl; [done|]. by rewrite IH. Qed.

Lemma substring_skip (a b : string) :
  String.substring (String.length a) (String.length b) (a ++ b) = b.
Proof.
  induction a as [|c a IH]; [apply substring_all|].
  rewrite append_cons. simpl. exact IH.
Qed.

Lemma endsWith_append (a b : string) : endsWith (a ++ b) b = true.
Proof.
  unfold endsWith. rewrite length_append.
  rewrite decide_True by lia.
  replace (String.length a + String.length b - String.length b)
    with (String.length a) by lia.
  rewrite substring_skip. by rewrite bool_decide_eq_true_2.
Qed.

(** X15: a create that answers 201 under an identifier without a path
    separator adds exactly one record file, [<id>.json], to the scan of the
    questions directory, so that the count of the health check goes up by
    one. *)
Theorem create_adds_one_record_file (w w' : world) (F : gmap string json)
    (rnd now1 now2 name : string) (b : json) (files : list string) :
  createQuestion (JObj F) rnd now1 now2 w = (Reply 201 b, w') ->
  toStr (or_else (F !! "_id") (JStr rnd)) = Done name ->
  no_sep name ->
  record_files w = Done files ->
  ∃ files', record_files w' = Done files' ∧
            files' ≡ₚ (name +:+ ".json") :: files ∧
            ∀ timestamp uptime,
              health w' timestamp uptime
              = healthy timestamp (S (length files)) uptime.
Proof.
  intros (name' & Hn' & _ & He & Hw)%create_stores Hn Hsep Hf.
  assert (name' = name) as -> by congruence.
  apply exists_false in He; [|by eapply write_accepted].
  apply write_inv in Hw as [Hk ->].
  set (c := File (Doc (JObj (serialised <$> stamped F rnd now1 now2)))).
  rewrite resolve_record_path in * by done.
  set (k := (cwd w ++ ["data"; "questions"; name +:+ ".json"])%list) in *.
  assert (tree w !! k = None) as Hnone.
  { unfold fs.node_at in He. by destruct k. }
  assert (∃ files', record_files (World (cwd w) (<[k := c]> (tree w)))
                    = Done files' ∧
            files' ≡ₚ (name +:+ ".json") :: files) as (files' & Hf' & Hperm).
  { unfold record_files, obind, fs.readdirSync in *.
    change (fs.has_nul QUESTIONS_DIR) with false in *. cbv iota in *.
    rewrite (resolve_same_cwd w (World (cwd w) _)) by done.
    rewrite resolve_questions_dir in *.
    destruct (fs.node_at w (cwd w ++ ["data"; "questions"])) as [[c'|]|] eqn:Eq;
      [done| |done].
    rewrite node_at_insert by done. rewrite decide_False.
    2:{ unfold k. intros Heq. apply (f_equal length) in Heq.
        rewrite !length_app in Heq. simpl in Heq. lia. }
    rewrite node_at_world, Eq. injection Hf as <-.
    eexists. split; [reflexivity|]. simpl tree.
    rewrite (map_to_list_insert (tree w) k _ Hnone). simpl omap.
    assert (fs.child_name (cwd w ++ ["data"; "questions"]) (k, c)
            = Some (name +:+ ".json")) as ->.
    { unfold fs.child_name, k. simpl.
      change (cwd w ++ ["data"; "questions"; name +:+ ".json"])%list
        with (cwd w ++ ["data"; "questions"] ++ [name +:+ ".json"])%list.
      rewrite app_assoc, last_snoc. by rewrite bool_decide_eq_true_2. }
    rewrite filter_cons_True by apply endsWith_append. done. }
  exists files'. split_and!; [done|done|].
  intros timestamp uptime. rewrite (health_run _ _ _ _ Hf').
  by rewrite Hperm.
Qed.

Lemma create_adds_one_record_file_witness :
  ∃ files', record_files (createQuestion (JObj ∅) "0a1b" "t1" "t2" demo).2
            = Done files' ∧
            files' ≡ₚ ("0a1b" +:+ ".json") :: ["q1.json"] ∧
            ∀ timestamp uptime,
              health (createQuestion (JObj ∅) "0a1b" "t1" "t2" demo).2
                     timestamp uptime
              = healthy timestamp (S (length ["q1.json"])) uptime.
Proof.
  apply (create_adds_one_record_file demo _ ∅ "0a1b" "t1" "t2" "0a1b"
           (body_of (createQuestion (JObj ∅) "0a1b" "t1" "t2" demo).1)
           ["q1.json"]); vm_compute; reflexivity.
Defined.
(** ** Uploaded files *)

Lemma basename_plain (s : string) :
  no_sep s -> s ≠ "" -> path.basename s = s.
Proof.
  intros Hs Hne. unfold path.basename. rewrite split_no_sep by done.
  by rewrite filter_cons_True.
Qed.

Lemma from_last_dot_suffix (s ext : string) :
  from_last_dot s = Some ext -> ∃ pre, s = pre ++ ext.
Proof.
  revert ext. induction s as [|c s IH]; intros ext; simpl; [done|].
  destruct (from_last_dot s) as [e|].
  - intros [= <-]. destruct (IH e eq_refl) as [pre ->].
    exists (String c pre). by rewrite append_cons.
  - case_bool_decide; [|done]. intros [= <-]. by exists "".
Qed.

Lemma extname_no_sep (p : string) : no_sep (extname p).
Proof.
  unfold extname, no_sep.
  destruct (from_last_dot (path.basename p)) as [ext|] eqn:E; [|done].
  case_bool_decide; [done|].
  apply from_last_dot_suffix in E as [pre E].
  pose proof (basename_no_sep p) as Hb. rewrite E, has_sep_append in Hb.
  by apply orb_false_iff in Hb as [_ ?].
Qed.

Lemma uniqueName_plain (uuid originalname : string) :
  token uuid ->
  no_sep (uniqueName uuid originalname) ∧ proper (uniqueName uuid originalname).
Proof.
  intros [Hs Hc]. unfold uniqueName. split.
  - unfold no_sep in *. rewrite has_sep_append, Hs. apply extname_no_sep.
  - destruct uuid as [|c u]; [done|]. rewrite append_cons.
    repeat split; [done| |]; intros [= -> _]; done.
Qed.

Lemma nested_join (folder name : string) :
  folder ∈ ALLOWED_FOLDERS -> name ≠ "" ->
  path.join [path.join [DATA_DIR; folder]; name]
  = path.join [DATA_DIR; folder; name].
Proof.
  intros Hf Hne.
  assert (folder = "profileimages" ∨ folder = "resumes") as [-> | ->].
  { unfold ALLOWED_FOLDERS in Hf. set_solver. }
  - change (path.join [DATA_DIR; "profileimages"]) with "data/profileimages".
    rewrite !join_nonempty; [done|done|by repeat constructor
                            |done|by repeat constructor].
  - change (path.join [DATA_DIR; "resumes"]) with "data/resumes".
    rewrite !join_nonempty; [done|done|by repeat constructor
                            |done|by repeat constructor].
Qed.

Lemma resolve_blob (w : world) (folder name : string) :
  folder ∈ ALLOWED_FOLDERS -> no_sep name -> proper name ->
  fs.resolve w (path.join [path.join [DATA_DIR; folder]; name])
  = (bucket w folder ++ [name])%list.
Proof.
  intros Hf Hs Hp. pose proof Hp as (Hne & _).
  rewrite nested_join by done.
  pose proof (blob_key_proper w folder name Hf) as H.
  unfold blob_path in H. cbv zeta in H.
  rewrite basename_plain in H by done. by apply H.
Qed.

Lemma blob_path_plain (folder name : string) :
  folder ∈ ALLOWED_FOLDERS -> no_sep name -> proper name ->
  path.join [path.join [DATA_DIR; folder]; name] = blob_path folder name.
Proof.
  intros Hf Hs Hp. pose proof Hp as (Hne & _).
  rewrite nested_join by done. unfold blob_path. cbv zeta.
  by rewrite basename_plain.
Qed.

Lemma has_nul_blob (folder name : string) :
  folder ∈ ALLOWED_FOLDERS -> no_sep name -> proper name ->
  fs.has_nul (path.join [path.join [DATA_DIR; folder]; name]) = fs.has_nul name.
Proof.
  intros Hf Hs Hp. pose proof Hp as (Hne & _).
  rewrite blob_path_plain by done.
  rewrite has_nul_blob_path by (by rewrite ?basename_plain).
  by rewrite basename_plain.
Qed.

Lemma serve_stored (w : world) (folder name : string) (c : content) :
  folder ∈ ALLOWED_FOLDERS -> no_sep name -> proper name ->
  fs.has_nul name = false ->
  tree w !! (bucket w folder ++ [name])%list = Some (File c) ->
  serveFile w folder name = if dotfile name then NotFound else SendFile c.
Proof.
  intros Hf Hs Hp Hv Hn. pose proof Hp as (Hne & _).
  unfold serveFile, sendFile, fs.existsSync.
  rewrite bool_decide_eq_true_2 by done. cbn [negb].
  rewrite has_nul_blob_path by (by rewrite ?basename_plain).
  rewrite blob_key_proper by (by rewrite ?basename_plain).
  rewrite basename_plain by done. rewrite Hv.
  rewrite node_at_snoc, Hn. cbn [negb]. rewrite last_snoc. simpl.
  by destruct (dotfile name).
Qed.

Lemma token_not_dotfile (uuid originalname : string) :
  token uuid -> dotfile (uniqueName uuid originalname) = false.
Proof.
  intros [_ Hc]. unfold uniqueName. destruct uuid as [|c u]; [done|].
  rewrite append_cons. simpl. destruct (u ++ extname originalname); [done|].
  by rewrite bool_decide_eq_false_2.
Qed.

Lemma fileFilter_accepted (folder mimetype : string) :
  fileFilter folder mimetype = None <->
  folder ∈ ALLOWED_FOLDERS ∧ accepted folder mimetype.
Proof.
  unfold fileFilter, accepted. split.
  - case_bool_decide as Hf; [|done]. cbn [negb].
    assert (folder = "profileimages" ∨ folder = "resumes") as [-> | ->].
    { unfold ALLOWED_FOLDERS in Hf. set_solver. }
    + rewrite bool_decide_eq_true_2 by done.
      destruct (startsWith mimetype "image/"); [|done]. intros _.
      split; [done|]. by left.
    + rewrite bool_decide_eq_false_2 by done.
      rewrite bool_decide_eq_true_2 by done.
      destruct (startsWith mimetype "image/"); cbn [negb andb].
      * intros _. split; [done|]. right. split; [done|by left].
      * case_bool_decide; [|done]. intros _. split; [done|]. right.
        split; [done|by right].
  - intros [Hf Ha]. rewrite bool_decide_eq_true_2 by done. cbn [negb].
    destruct Ha as [[-> ->] | [-> Ha]].
    + by rewrite bool_decide_eq_true_2.
    + rewrite bool_decide_eq_false_2 by done.
      rewrite bool_decide_eq_true_2 by done.
      destruct Ha as [-> | ->]; [done|].
      rewrite bool_decide_eq_true_2 by done. by rewrite andb_false_r.
Qed.

(** X16: an upload that answers 201 was made to an allowed folder with a
    content type the folder accepts and with at most 5 MiB; the stored name
    (the random token followed by the extension of the declared name)
    contains no separator and names an entry; serving the folder and name of
    the answer returns the uploaded bytes, and no other entry of the volume
    has changed. *)
Theorem upload_then_serve (w w' : world) (protocol host folder uuid : string)
    (f : part) (b : json) :
  uploadFile protocol host folder (Some f) uuid w = (Reply 201 b, w') ->
  token uuid ->
  folder ∈ ALLOWED_FOLDERS ∧ accepted folder (mimetype f) ∧
  (size f ≤ fileSize)%nat ∧
  no_sep (uniqueName uuid (originalname f)) ∧
  proper (uniqueName uuid (originalname f)) ∧
  Reply 201 b
  = uploaded (protocol ++ "://" ++ host ++ "/files/" ++ folder ++ "/"
              ++ uniqueName uuid (originalname f) ++ "?apiKey=" ++ API_KEY)
             (uniqueName uuid (originalname f)) folder (size f) (mimetype f) ∧
  serveFile w' folder (uniqueName uuid (originalname f)) = SendFile (bytes f) ∧
  cwd w' = cwd w ∧
  ∀ k, k ≠ (bucket w folder ++ [uniqueName uuid (originalname f)])%list ->
       tree w' !! k = tree w !! k.
Proof.
  intros Hu Ht. unfold uploadFile in Hu.
  destruct (fileFilter folder (mimetype f)) as [msg|] eqn:Hff; [done|].
  apply fileFilter_accepted in Hff as [Hf Ha].
  destruct (uniqueName_plain uuid (originalname f) Ht) as [Hs Hp].
  cbv zeta in Hu.
  destruct (fs.writeFileSync w _ (bytes f)) as [w1|e] eqn:Hw; [|done].
  case_decide as Hsz; [|done].
  injection Hu as Hb <-.
  pose proof (write_accepted _ _ _ _ Hw) as Hv.
  rewrite has_nul_blob in Hv by done.
  apply write_inv in Hw as [Hk ->].
  rewrite resolve_blob in * by done.
  split_and!; try done.
  - by subst b.
  - rewrite (serve_stored _ folder _ (bytes f)); try done.
    + by rewrite token_not_dotfile.
    + simpl. unfold bucket. simpl. apply lookup_insert_eq.
  - intros k Hne. simpl. by rewrite lookup_insert_ne.
Qed.

Lemma upload_then_serve_witness :
  let f := Part "me.v2.png" "image/png" (Bytes "PNG") 3 in
  let r := uploadFile "http" "h" "profileimages" (Some f) "0a1b" demo in
  "profileimages" ∈ ALLOWED_FOLDERS ∧ accepted "profileimages" (mimetype f) ∧
  (size f ≤ fileSize)%nat ∧
  no_sep (uniqueName "0a1b" (originalname f)) ∧
  proper (uniqueName "0a1b" (originalname f)) ∧
  Reply 201 (body_of r.1)
  = uploaded ("http" ++ "://" ++ "h" ++ "/files/" ++ "profileimages" ++ "/"
              ++ uniqueName "0a1b" (originalname f) ++ "?apiKey=" ++ API_KEY)
             (uniqueName "0a1b" (originalname f)) "profileimages" (size f)
             (mimetype f) ∧
  serveFile r.2 "profileimages" (uniqueName "0a1b" (originalname f))
  = SendFile (bytes f) ∧
  cwd r.2 = cwd demo ∧
  ∀ k, k ≠ (bucket demo "profileimages"
            ++ [uniqueName "0a1b" (originalname f)])%list ->
       tree r.2 !! k = tree demo !! k.
Proof.
  cbv zeta.
  apply (upload_then_serve demo _ "http" "h" "profileimages" "0a1b"
           (Part "me.v2.png" "image/png" (Bytes "PNG") 3)).
  - vm_compute. reflexivity.
  - split; [reflexivity|]. simpl. discriminate.
Defined.

(** X17: an upload answers 201 or 400.  When it answers 400 nothing has been
    added to the volume.  A file for a folder that is not allowed, or of a
    content type the folder does not accept, is answered 400 with the
    volume unchanged; a file of more than 5 MiB is answered 400. *)
Theorem upload_rejected (w : world) (protocol host folder uuid : string)
    (file : option part) :
  (status_of (uploadFile protocol host folder file uuid w).1 = 201 ∨
   (status_of (uploadFile protocol host folder file uuid w).1 = 400 ∧
    cwd (uploadFile protocol host folder file uuid w).2 = cwd w ∧
    tree (uploadFile protocol host folder file uuid w).2 ⊆ tree w)) ∧
  (∀ f, file = Some f ->
     ¬ (folder ∈ ALLOWED_FOLDERS ∧ accepted folder (mimetype f)) ->
     status_of (uploadFile protocol host folder file uuid w).1 = 400 ∧
     (uploadFile protocol host folder file uuid w).2 = w) ∧
  (∀ f, file = Some f -> (fileSize < size f)%nat ->
     status_of (uploadFile protocol host folder file uuid w).1 = 400).
Proof.
  split_and!.
  - unfold uploadFile. destruct file as [f|]; [|by right].
    destruct (fileFilter folder (mimetype f)) as [msg|]; [by right|].
    cbv zeta.
    destruct (fs.writeFileSync w _ (bytes f)) as [w1|e] eqn:Hw; [|by right].
    case_decide; [by left|]. right.
    pose proof (write_accepted _ _ _ _ Hw) as Hv.
    apply write_inv in Hw as [Hk ->].
    unfold fs.unlinkSync. rewrite Hv.
    rewrite (resolve_same_cwd w (World (cwd w) _)) by done.
    rewrite node_at_insert by done. rewrite decide_True by done.
    simpl. split_and!; [done..|].
    rewrite delete_insert_eq. apply delete_subseteq.
  - intros f -> Hna. unfold uploadFile.
    destruct (fileFilter folder (mimetype f)) as [msg|] eqn:Hff; [done|].
    by apply fileFilter_accepted in Hff.
  - intros f -> Hsz. unfold uploadFile.
    destruct (fileFilter folder (mimetype f)) as [msg|]; [done|].
    cbv zeta.
    destruct (fs.writeFileSync w _ (bytes f)) as [w1|e]; [|done].
    rewrite decide_False by lia. done.
Qed.
(** ** Listing of files *)



(** ** The claims on sample requests *)

(** C1 (the code departs from the claim): an identifier with a relative
    component leaves the questions directory.  On the sample volume the
    record path of ["../backup"] is [data/backup.json]; get reads that
    file, delete removes it, update rewrites it, and a create with
    identifier ["../planted"] writes [data/planted.json]. *)
Theorem record_id_escapes_questions_directory :
  fs.resolve demo QUESTIONS_DIR = ["srv"; "data"; "questions"] ∧
  record_path "../backup" = "data/backup.json" ∧
  fs.resolve demo (record_path "../backup") = ["srv"; "data"; "backup.json"] ∧
  getQuestion demo "../backup" = found backup ∧
  deleteQuestion "../backup" demo
  = (acknowledged 200 "Question deleted" None,
     World ["srv"] (delete ["srv"; "data"; "backup.json"] (tree demo))) ∧
  (updateQuestion "../backup" (JObj ∅) "t3" demo).2
  = World ["srv"]
      (<[["srv"; "data"; "backup.json"]
         := File (Doc (JObj (list_to_map [("secret", JStr "s3cr3t");
                                          ("_id", JStr "../backup");
                                          ("updatedAt", JStr "t3")])))]>
         (tree demo)) ∧
  (createQuestion (JObj {[ "_id" := JStr "../planted" ]}) "rnd" "t1" "t2" demo).2
  = World ["srv"]
      (<[["srv"; "data"; "planted.json"]
         := File (Doc (JObj (list_to_map [("_id", JStr "../planted");
                                          ("createdAt", JStr "t1");
                                          ("updatedAt", JStr "t2")])))]>
         (tree demo)).
Proof. split_and!; vm_compute; reflexivity. Qed.

(** C2 (the code departs from the claim): no record exists for the
    identifier ["2025/q7"], yet create answers 500 and stores nothing: the
    identifier is joined into the path as it is, the path lies in a
    directory [data/questions/2025] that does not exist, and the write
    throws. *)
Theorem create_in_missing_directory :
  let body := JObj (list_to_map [("_id", JStr "2025/q7"); ("title", JStr "Median")]) in
  fs.resolve demo (record_path "2025/q7")
  = ["srv"; "data"; "questions"; "2025"; "q7.json"] ∧
  fs.existsSync demo (record_path "2025/q7") = false ∧
  createQuestion body "rnd" "t1" "t2" demo
  = (failure 500 "Failed to create question", demo).
Proof. split_and!; vm_compute; reflexivity. Qed.

(** C3 (the code departs from the claim): a record created with the numeric
    identifier [7] is stored as [7.json] with [_id] the number [7]; an
    update through [/questions/7] stores [_id] as the string ["7"].  The
    patched [title] and [updatedAt] change, [createdAt] stays.  Likewise a
    record created with the identifier ["./q8"] is stored as [q8.json],
    and an update through [/questions/q8] stores [_id] as ["q8"]. *)
Theorem update_rewrites_stored_id :
  let body := JObj (list_to_map [("_id", JNum "7"); ("title", JStr "Median")]) in
  let w1 := (createQuestion body "rnd" "t1" "t2" demo).2 in
  let w2 := (updateQuestion "7" (JObj {[ "title" := JStr "Mean" ]}) "t3" w1).2 in
  let body' := JObj {[ "_id" := JStr "./q8" ]} in
  let w3 := (createQuestion body' "rnd" "t1" "t2" demo).2 in
  let w4 := (updateQuestion "q8" (JObj ∅) "t3" w3).2 in
  fs.readFileSync w1 (record_path "7")
  = Done (Doc (JObj (list_to_map [("_id", JNum "7"); ("title", JStr "Median");
                                  ("createdAt", JStr "t1");
                                  ("updatedAt", JStr "t2")]))) ∧
  fs.readFileSync w2 (record_path "7")
  = Done (Doc (JObj (list_to_map [("_id", JStr "7"); ("title", JStr "Mean");
                                  ("createdAt", JStr "t1");
                                  ("updatedAt", JStr "t3")]))) ∧
  fs.readFileSync w3 (record_path "q8")
  = Done (Doc (JObj (list_to_map [("_id", JStr "./q8");
                                  ("createdAt", JStr "t1");
                                  ("updatedAt", JStr "t2")]))) ∧
  fs.readFileSync w4 (record_path "q8")
  = Done (Doc (JObj (list_to_map [("_id", JStr "q8");
                                  ("createdAt", JStr "t1");
                                  ("updatedAt", JStr "t3")]))).
Proof. split_and!; vm_compute; reflexivity. Qed.

(** C4, as stated, fails: the payload has the field [timeLimit] with a
    number beyond the double range, the create answers 201, and the record
    the get returns has [null] in its place. *)
Lemma create_loses_out_of_range_number :
  out_of_range !! "timeLimit" = Some (JNum "Infinity") ∧
  (createQuestion (JObj out_of_range) "0a1b" "t1" "t2" demo).1
  = created (JStr "0a1b") "0a1b" ∧
  getQuestion (createQuestion (JObj out_of_range) "0a1b" "t1" "t2" demo).2 "0a1b"
  = found (JObj (list_to_map [("title", JStr "Median"); ("timeLimit", JNull);
                              ("_id", JStr "0a1b"); ("createdAt", JStr "t1");
                              ("updatedAt", JStr "t2")])).
Proof. split_and!; vm_compute; reflexivity. Qed.

Lemma create_then_get_witness :
  ∃ (id : json) (name : string) (D : gmap string json),
    Reply 201 (body_of (createQuestion (JObj out_of_range) "0a1b" "t1" "t2"
                          empty_store).1)
    = created id name ∧
    toStr id = Done name ∧
    getQuestion (createQuestion (JObj out_of_range) "0a1b" "t1" "t2" empty_store).2
                name
    = found (JObj D) ∧
    dom D = dom out_of_range ∪ reserved ∧
    (∀ k, k ∉ reserved -> D !! k = serialised <$> out_of_range !! k) ∧
    (∀ k v, k ∉ reserved -> out_of_range !! k = Some v -> finite v ->
            D !! k = Some v) ∧
    D !! "_id" = Some (serialised id) ∧
    sent (Reply 201 (body_of (createQuestion (JObj out_of_range) "0a1b" "t1" "t2"
                                empty_store).1))
    = created (serialised id) name ∧
    sent (getQuestion
            (createQuestion (JObj out_of_range) "0a1b" "t1" "t2" empty_store).2
            name)
    = found (JObj D).
Proof.
  apply (create_then_get empty_store _ out_of_range "0a1b" "t1" "t2" _).
  vm_compute. reflexivity.
Defined.



(** C6, as stated, fails: both records carry an identifier and nothing is
    stored under it, yet the first import creates one record and skips the
    other, because the two identifiers are the same. *)
Lemma bulk_import_repeated_identifier :
  let qs := [JObj {[ "_id" := JStr "a" ]}; JObj {[ "_id" := JStr "a" ]}] in
  Forall (fun q => identifier q = Some "a") qs ∧
  fs.existsSync demo (record_path "a") = false ∧
  (bulkImport (JObj {[ "questions" := JArr qs ]}) (fun _ => "t") demo).1
  = imported 1 1.
Proof.
  cbv zeta. split_and!.
  - repeat constructor.
  - vm_compute. reflexivity.
  - vm_compute. reflexivity.
Qed.

Lemma bulk_import_counts_witness :
  let body := JObj {[ "questions" := JArr [JObj {[ "_id" := JStr "a" ]};
                                           JObj {[ "_id" := JNum "12" ]}] ]} in
  (∃ w1,
     bulkImport body (fun _ => "t") demo = (imported 2 0, w1) ∧
     bulkImport body (fun _ => "u") w1 = (imported 0 2, w1)) ∧
  bulkImport (JObj {[ "questions" := JArr [JObj {[ "_id" := JStr long_name ]}] ]})
             (fun _ => "t") demo
  = (failure 500 "Bulk import failed", demo).
Proof.
  cbv zeta.
  destruct (bulk_import_counts (fun _ => "t") demo) as (_ & _ & _ & _ & H & Hlong).
  split.
  - apply (H _ [JObj {[ "_id" := JStr "a" ]}; JObj {[ "_id" := JNum "12" ]}]
             (fun _ => "u")).
    + reflexivity.
    + reflexivity.
    + repeat constructor.
      * exists "a". split_and!; [reflexivity..| |reflexivity].
        split; [reflexivity|vm_compute; lia].
      * exists "12". split_and!; [reflexivity..| |reflexivity].
        split; [reflexivity|vm_compute; lia].
    + change (NoDup ["a"; "12"]). repeat constructor; set_solver.
  - apply (Hlong _ (JObj {[ "_id" := JStr long_name ]}) [] long_name).
    + reflexivity.
    + reflexivity.
    + vm_compute. reflexivity.
    + vm_compute. reflexivity.
    + vm_compute. reflexivity.
    + vm_compute. reflexivity.
    + vm_compute. lia.
Defined.

Lemma malformed_record_fails_scan_witness :
  listQuestions damaged = failure 500 "Failed to list questions" ∧
  (∀ files, record_files damaged = Done files -> "zz.json" ∈ files) ∧
  (∀ (slug : string) (pre post : list string),
     record_files damaged = Done (pre ++ "zz.json" :: post)%list ->
     Forall (fun f => ∀ data, read_record damaged f = Done data ->
                              get_prop data "slug" ≠ Done (Some (JStr slug))) pre ->
     getQuestionBySlug damaged slug = failure 500 "Failed to get question").
Proof.
  apply (malformed_record_fails_scan damaged "zz.json" "{ oops");
    vm_compute; reflexivity.
Defined.

(** C9, as stated, fails: the payload contains [createdAt] (the number 0),
    and create stores the clock reading in its place. *)
Lemma create_replaces_falsy_createdAt :
  let F : gmap string json :=
    list_to_map [("_id", JStr "q9"); ("createdAt", JNum "0")] in
  F !! "createdAt" = Some (JNum "0") ∧
  (createQuestion (JObj F) "rnd" "t1" "t2" demo).1 = created (JStr "q9") "q9" ∧
  fs.readFileSync (createQuestion (JObj F) "rnd" "t1" "t2" demo).2
                  (record_path "q9")
  = Done (Doc (JObj (list_to_map [("_id", JStr "q9"); ("createdAt", JStr "t1");
                                  ("updatedAt", JStr "t2")]))).
Proof. split_and!; vm_compute; reflexivity. Qed.

Lemma create_timestamps_witness :
  ∃ (name : string) (D : gmap string json),
    toStr (or_else (sum_fields !! "_id") (JStr "0a1b")) = Done name ∧
    fs.readFileSync (createQuestion (JObj sum_fields) "0a1b" "t1" "t2"
                       empty_store).2 (record_path name)
    = Done (Doc (JObj D)) ∧
    (truthy (sum_fields !! "createdAt") = true ->
       D !! "createdAt" = serialised <$> sum_fields !! "createdAt") ∧
    (∀ v, sum_fields !! "createdAt" = Some v -> truthy (Some v) = true ->
          finite v -> D !! "createdAt" = Some v) ∧
    (truthy (sum_fields !! "createdAt") = false ->
       D !! "createdAt" = Some (JStr "t1")) ∧
    D !! "updatedAt" = Some (JStr "t2").
Proof.
  apply (create_timestamps empty_store _ sum_fields "0a1b" "t1" "t2"
           (body_of (createQuestion (JObj sum_fields) "0a1b" "t1" "t2"
                       empty_store).1)).
  vm_compute. reflexivity.
Defined.

Lemma bulk_import_not_atomic_witness :
  let first := JObj {[ "_id" := JStr "a" ]} in
  let second := JObj {[ "_id" := JStr "2025/b" ]} in
  let third := JObj {[ "_id" := JStr "c" ]} in
  let body := JObj {[ "questions" := JArr [first; second; third] ]} in
  let w1 := (bulk_loop (fun _ => "t") 0 [first] 0 0 demo).2 in
  bulkImport body (fun _ => "t") demo = (failure 500 "Bulk import failed", w1) ∧
  grows demo w1 ∧
  fs.readFileSync w1 (record_path "a")
  = Done (JSON_stringify (stamp_bulk first "t")) ∧
  get_prop (stamp_bulk first "t") "createdAt" = get_prop first "createdAt" ∧
  fs.existsSync w1 (record_path "c") = false.
Proof.
  cbv zeta.
  destruct (bulk_import_not_atomic
              (JObj {[ "questions" := JArr [JObj {[ "_id" := JStr "a" ]};
                                            JObj {[ "_id" := JStr "2025/b" ]};
                                            JObj {[ "_id" := JStr "c" ]}] ]})
              (fun _ => "t") demo
              (bulk_loop (fun _ => "t") 0 [JObj {[ "_id" := JStr "a" ]}] 0 0 demo).2
              [JObj {[ "_id" := JStr "a" ]}] [JObj {[ "_id" := JStr "c" ]}]
              (JObj {[ "_id" := JStr "2025/b" ]}) 1 0
              (Some (JStr "2025/b")) "2025/b" ENOENT)
    as (Hfail & Hgrows & Hkept); try (vm_compute; reflexivity).
  destruct (Hkept [] [] (JObj {[ "_id" := JStr "a" ]}) 0 0 demo
              (bulk_loop (fun _ => "t") 0 [JObj {[ "_id" := JStr "a" ]}] 0 0 demo).2
              (Some (JStr "a")) "a") as [Hread Hstamp];
    try (vm_compute; reflexivity).
  split_and!.
  - exact Hfail.
  - exact Hgrows.
  - exact Hread.
  - exact Hstamp.
  - vm_compute. reflexivity.
Defined.

Example list_of_the_sample_volume :
  listQuestions demo
  = listed [JObj (list_to_map [("_id", JStr "q1"); ("title", JStr "Two Sum");
                               ("slug", JStr "two-sum");
                               ("createdAt", JStr "2025-01-01T00:00:00.000Z");
                               ("updatedAt", JStr "2025-01-01T00:00:00.000Z")])].
Proof. vm_compute. reflexivity. Qed.

Example path_functions :
  path.split "a//b/" = ["a"; ""; "b"; ""] ∧
  path.join ["./data"; "questions"] = "data/questions" ∧
  path.join ["data/questions"; "../../x.json"] = "x.json" ∧
  path.join ["data/questions"; "../../../x.json"] = "../x.json" ∧
  path.basename "../a/b.png//" = "b.png" ∧
  path.basename ".." = ".." ∧
  path.basename "/" = "".
Proof. split_and!; reflexivity. Qed.

Example string_conversion :
  toStr (JArr [JNum "1"; JNull; JArr [JStr "a"; JStr "b"]]) = Done "1,,a,b" ∧
  toStr (JObj {[ "toString" := JNum "1" ]}) = Thrown TypeError.
Proof. split; reflexivity. Qed.

Example key_check :
  POST_questions (Some API_KEY) None sum_question "rnd" "t1" "t2" demo
  = createQuestion sum_question "rnd" "t1" "t2" demo ∧
  POST_questions None (Some "guess") sum_question "rnd" "t1" "t2" demo
  = (failure 401 "Invalid or missing API key", demo).
Proof. split; reflexivity. Qed.
